(** * paxml: checkpoint cadence, experiment lookup and the tuning loop

    A shallow embedding of [paxml/checkpoint_managers.py],
    [paxml/experiment_lib.py] and [paxml/tuning_lib.py].

    Python integers are unbounded, hence [Z]; Python floats are IEEE
    binary64, hence the primitive [float]; dictionaries keyed by strings are
    [gmap string _]; [None] is [option]'s [None]; a raised exception is the
    [Raise] branch of [result]. *)

From Stdlib Require Import ZArith Floats Ascii String.
From stdpp Require Import gmap strings list fin_maps pretty sorting.

Open Scope Z_scope.

(** ** Python exceptions and results *)

(** The fields of [automl.EarlyStoppingError] that [tune] reads. *)
Record EarlyStop := {
  es_skip : bool;
  es_skip_reason : option string;
  es_step : Z;
  es_reward : option float;
  es_metrics : gmap string (option float);
  es_checkpoint : option string
}.

Inductive exn :=
| ValueError (msg : string)
| AssertionError
| ZeroDivisionError
| TypeError
| FloatingPointError (msg : string)
| ModuleNotFoundError (module_name : string)
| FileExistsError
| NotADirectoryError
| NotFoundError
| AlreadyExistsError
| InvalidArgumentError
| FailedPreconditionError
| EarlyStoppingError (e : EarlyStop)
| OtherError (cls msg : string).

Inductive result (A : Type) :=
| Ok (a : A)
| Raise (e : exn).
Arguments Ok {A} a.
Arguments Raise {A} e.

Definition bind {A B} (r : result A) (k : A -> result B) : result B :=
  match r with
  | Ok a => k a
  | Raise e => Raise e
  end.

Notation "x <- r ;; k" := (bind r (fun x => k))
  (at level 100, r at next level, right associativity).

(** ** checkpoint_managers.py *)

Module checkpoint_managers.

Definition CHECKPOINT_PREFIX : string := "checkpoint_".

(** [checkpoint_pb2.CheckpointType]; the source names two members, the
    others are kept apart as [CHECKPOINT_OTHER]. *)
Inductive CheckpointType :=
| CHECKPOINT_UNSPECIFIED
| CHECKPOINT_FLAX
| CHECKPOINT_OTHER.

Record CheckpointInfo := {
  step : Z;
  time : Z;
  metrics : option (gmap string float)
}.

Record CheckpointManagerOptions := {
  save_interval_steps : option Z;
  max_to_keep : option Z;
  todelete_subdir : option string
}.

(** A path is the list of its parts, as [PurePosixPath.parts] has them: an
    absolute path starts with the part ['/'] (or ['//']). *)
Definition Path := list string.

(** The entry named [entry] of the directory [p], as a listing or a glob of
    [p] names it. *)
Definition child (p : Path) (entry : string) : Path := p ++ [entry].

Fixpoint has_slash (s : string) : bool :=
  match s with
  | EmptyString => false
  | String c s' => Ascii.eqb c "/" || has_slash s'
  end.

(** [s.split('/')]. *)
Fixpoint split_slash (s : string) : list string :=
  match s with
  | EmptyString => [EmptyString]
  | String c s' =>
    if Ascii.eqb c "/" then EmptyString :: split_slash s'
    else match split_slash s' with
         | segment :: rest => String c segment :: rest
         | [] => [String c EmptyString]
         end
  end.

(** The root of a POSIX path string: ['/'] for an absolute path, ['//'] for
    one with exactly two leading slashes, none for a relative path. *)
Definition root_of (s : string) : option string :=
  if String.prefix "///" s then Some "/"%string
  else if String.prefix "//" s then Some "//"%string
  else if String.prefix "/" s then Some "/"%string
  else None.

(** The parts of a POSIX path string after its root: the segments between
    slashes, less the empty ones and the ['.'] ones; ['..'] stays. *)
Definition parts_of (s : string) : list string :=
  List.filter
    (fun segment =>
       negb (String.eqb segment "") && negb (String.eqb segment "."))
    (split_slash s).

(** [p / s] on [epath.Path], a [PurePosixPath]: the parts of [s] follow
    those of [p], and an absolute [s] replaces [p]. *)
Definition path_div (p : Path) (s : string) : Path :=
  match root_of s with
  | Some root => root :: parts_of s
  | None => p ++ parts_of s
  end.

Record OrbaxCheckpointManager := {
  _checkpoint_type : CheckpointType;
  directory : Path;
  _options : CheckpointManagerOptions;
  _checkpoints : list CheckpointInfo;
  _last_checkpoint : option CheckpointInfo
}.

(** [x or 1] on an optional integer: [None] and [0] are falsy. *)
Definition or_1 (x : option Z) : Z :=
  match x with
  | None => 1
  | Some 0 => 1
  | Some n => n
  end.

(** [OrbaxCheckpointManager.__init__].  The superclass constructor stores
    the options and the checkpoints found on disk ([existing], ascending),
    the last of which becomes [_last_checkpoint]. *)
Definition __init__ (dir : Path) (options : CheckpointManagerOptions)
    (existing : list CheckpointInfo) (checkpoint_type : CheckpointType)
  : result OrbaxCheckpointManager :=
  match checkpoint_type with
  | CHECKPOINT_UNSPECIFIED => Raise (ValueError "Must specify checkpoint type.")
  | _ =>
    Ok {| _checkpoint_type := checkpoint_type;
          directory := dir;
          _options :=
            {| save_interval_steps := Some (or_1 (save_interval_steps options));
               max_to_keep := max_to_keep options;
               todelete_subdir := todelete_subdir options |};
          _checkpoints := existing;
          _last_checkpoint := last existing |}
  end.

(** [step % n == 0]; Python's [%] takes the sign of the divisor, as
    [Z.modulo] does, and raises on a zero divisor or a [None] operand. *)
Definition mod_is_zero (step : Z) (n : option Z) : result bool :=
  match n with
  | None => Raise TypeError
  | Some 0 => Raise ZeroDivisionError
  | Some n => Ok (step mod n =? 0)
  end.

Section manager.

(** [preemption.reached_preemption_sync_point], an external signal. *)
Variable reached_preemption_sync_point : Z -> bool.

(** [checkpoints.checkpoint_name], the name of a step's directory for the
    formats other than Flax. *)
Variable checkpoints_checkpoint_name : Z -> string.

Definition _checkpoint_name (self : OrbaxCheckpointManager) (s : Z) : string :=
  match _checkpoint_type self with
  | CHECKPOINT_FLAX => CHECKPOINT_PREFIX +:+ pretty s
  | _ => checkpoints_checkpoint_name s
  end.

Definition should_save (self : OrbaxCheckpointManager) (s : Z) : result bool :=
  if reached_preemption_sync_point s then Ok true
  else
    let last_checkpoint_step := step <$> _last_checkpoint self in
    match last_checkpoint_step with
    | None => Ok true
    | Some l =>
      if l <? s then mod_is_zero s (save_interval_steps (_options self))
      else Ok false
    end.

(** The bookkeeping of the superclass's [save]: a checkpoint that has been
    written is appended to [_checkpoints] and becomes [_last_checkpoint]. *)
Definition record_saved (self : OrbaxCheckpointManager) (s now : Z)
  : OrbaxCheckpointManager :=
  let info := {| step := s; time := now; metrics := None |} in
  {| _checkpoint_type := _checkpoint_type self;
     directory := directory self;
     _options := _options self;
     _checkpoints := _checkpoints self ++ [info];
     _last_checkpoint := Some info |}.

(** The superclass's [save(step, ...)] without [force]: it asks
    [should_save] and writes only on a positive answer. *)
Definition save (self : OrbaxCheckpointManager) (s : Z)
  : result (bool * OrbaxCheckpointManager) :=
  b <- should_save self s ;;
  Ok (b, if b then record_saved self s 0 else self).

(** A sequence of steps submitted to one manager; the answers, in order. *)
Fixpoint submit (self : OrbaxCheckpointManager) (steps : list Z)
  : result (list (Z * bool)) :=
  match steps with
  | [] => Ok []
  | s :: rest =>
    r <- save self s ;;
    tl <- submit r.2 rest ;;
    Ok ((s, r.1) :: tl)
  end.

(** *** The file system behind [epath] and [tf.io.gfile] *)

Inductive Node :=
| Dir
| File (content : string).

Definition FS := Path -> option Node.

Definition fs_exists (fs : FS) (p : Path) : bool :=
  match fs p with Some _ => true | None => false end.

Definition is_file (fs : FS) (p : Path) : bool :=
  match fs p with Some (File _) => true | _ => false end.

Definition is_dir (fs : FS) (p : Path) : bool :=
  match fs p with Some Dir => true | _ => false end.

Fixpoint is_prefix (p q : Path) : bool :=
  match p, q with
  | [], _ => true
  | _ :: _, [] => false
  | x :: p', y :: q' => if decide (x = y) then is_prefix p' q' else false
  end.

Fixpoint strip (p q : Path) : option Path :=
  match p, q with
  | [], q => Some q
  | _ :: _, [] => None
  | x :: p', y :: q' => if decide (x = y) then strip p' q' else None
  end.

(** The proper ancestors of a path, the root first. *)
Definition ancestors (p : Path) : list Path :=
  (fun n => take n p) <$> seq 0 (length p).

(** [Path.mkdir(parents=True)]. *)
Definition mkdir_parents (fs : FS) (p : Path) : result FS :=
  if fs_exists fs p then Raise FileExistsError
  else if existsb (is_file fs) (ancestors p) then Raise NotADirectoryError
  else Ok (fun q =>
    if is_prefix q p then
      match fs q with Some n => Some n | None => Some Dir end
    else fs q).

(** [tf.io.gfile.rename(src, dst)] with its default [overwrite=False].  The
    destination is tested first and must not exist; then the file system's
    own rename runs, which needs the source to exist, the directory of the
    destination to be a directory and the destination not to lie below the
    source; the whole tree under [src] moves under [dst]. *)
Definition rename (fs : FS) (src dst : Path) : result FS :=
  if fs_exists fs dst then Raise AlreadyExistsError
  else if negb (fs_exists fs src) then Raise NotFoundError
  else if negb (fs_exists fs (removelast dst)) then Raise NotFoundError
  else if negb (is_dir fs (removelast dst)) then Raise FailedPreconditionError
  else if is_prefix src dst then Raise InvalidArgumentError
  else Ok (fun q =>
    if is_prefix src q then None
    else match strip dst q with
         | Some suffix => fs (src ++ suffix)
         | None => fs q
         end).

(** [Path.rmtree()]. *)
Definition rmtree (fs : FS) (p : Path) : result FS :=
  if negb (fs_exists fs p) then Raise NotFoundError
  else Ok (fun q => if is_prefix p q then None else fs q).

(** The superclass's [_delete_directory]: on process 0 the step's directory
    is removed with everything below it. *)
Definition super_delete_directory (process_index : Z)
    (self : OrbaxCheckpointManager) (s : Z) (fs : FS) : result FS :=
  if negb (process_index =? 0) then Ok fs
  else rmtree fs (path_div (directory self) (_checkpoint_name self s)).

(** Truthiness of an optional string: [None] and [''] are falsy. *)
Definition truthy_str (s : option string) : option string :=
  match s with
  | Some EmptyString => None
  | other => other
  end.

Definition _delete_directory (process_index : Z)
    (self : OrbaxCheckpointManager) (s : Z) (fs : FS) : result FS :=
  if negb (process_index =? 0) then Ok fs
  else
    let checkpoint_name := _checkpoint_name self s in
    match truthy_str (todelete_subdir (_options self)) with
    | Some sub =>
      let rename_dir := path_div (directory self) sub in
      fs1 <- (if negb (fs_exists fs rename_dir)
              then mkdir_parents fs rename_dir else Ok fs) ;;
      let src := path_div (directory self) checkpoint_name in
      let dst := path_div rename_dir checkpoint_name in
      rename fs1 src dst
    | None => super_delete_directory process_index self s fs
    end.

(** *** Discovering and cleaning up checkpoints *)

(** [checkpoints.is_checkpoint_asset] and [checkpoints.CHECKPOINT_PREFIX]. *)
Variable is_checkpoint_asset : string -> bool.
Variable checkpoints_CHECKPOINT_PREFIX : string.

(** [int(s)] on a string: the integer, or a [ValueError]. *)
Variable int_of_str : string -> result Z.

(** [path.stat().mtime], raising when the path does not exist. *)
Variable stat_mtime : Path -> result Z.

(** The metrics item that [_restore_impl] restores for a step, [None] when
    the restored items do not hold it. *)
Variable restore_metrics : Z -> result (option (gmap string float)).

(** [orbax.checkpoint.utils.is_checkpoint_item_finalized]. *)
Variable is_checkpoint_item_finalized : Path -> bool.

(** [os.path.basename]: what follows the last slash. *)
Fixpoint basename (s : string) : string :=
  match s with
  | EmptyString => EmptyString
  | String c s' =>
    if has_slash s' then basename s'
    else if Ascii.eqb c "/" then s' else String c s'
  end.

(** [s.replace(old, '')], scanning from the left; [skip] characters of an
    occurrence found are still to be dropped. *)
Fixpoint remove_all_from (old : string) (skip : nat) (s : string) : string :=
  match s with
  | EmptyString => EmptyString
  | String c s' =>
    match skip with
    | S k => remove_all_from old k s'
    | O =>
      if negb (String.eqb old EmptyString) && String.prefix old s
      then remove_all_from old (String.length old - 1) s'
      else String c (remove_all_from old 0 s')
    end
  end.

Definition remove_all (old s : string) : string := remove_all_from old 0 s.

(** A list comprehension whose element expression may raise. *)
Fixpoint for_each {A B} (f : A -> result B) (l : list A) : result (list B) :=
  match l with
  | [] => Ok []
  | x :: rest =>
    y <- f x ;;
    ys <- for_each f rest ;;
    Ok (y :: ys)
  end.

(** [get_metrics] inside [_create_checkpoints]. *)
Definition get_metrics (track_best : bool) (s : Z)
  : result (option (gmap string float)) :=
  if track_best then restore_metrics s else Ok None.

(** [_create_checkpoints]; [listing] is what [tf.io.gfile.listdir] returns
    for the manager's directory, [track_best] is [self._track_best]. *)
Definition _create_checkpoints (track_best : bool)
    (self : OrbaxCheckpointManager) (listing : list string)
  : result (list CheckpointInfo) :=
  let dirnames := List.filter is_checkpoint_asset listing in
  parsed <- for_each
              (fun x =>
                 int_of_str
                   (remove_all checkpoints_CHECKPOINT_PREFIX (basename x)))
              dirnames ;;
  let steps := merge_sort Z.le parsed in
  match steps with
  | [] => Ok []
  | _ =>
    times <- for_each
               (fun s =>
                  stat_mtime (path_div (directory self) (_checkpoint_name self s)))
               steps ;;
    metrics <- for_each (get_metrics track_best) steps ;;
    Ok ((fun stm => {| step := stm.1.1; time := stm.1.2; metrics := stm.2 |})
          <$> zip (zip steps times) metrics)
  end.

(** The loop of [_cleanup_tmp_directories] over [tmp_dirs]. *)
Fixpoint remove_tmp_dirs (tmp_dirs : list Path) (fs : FS) : result FS :=
  match tmp_dirs with
  | [] => Ok fs
  | tmp_dir :: rest =>
    if is_dir fs tmp_dir then
      fs' <- rmtree fs tmp_dir ;;
      remove_tmp_dirs rest fs'
    else Raise AssertionError
  end.

(** [self.directory.glob(CHECKPOINT_PREFIX + '*')] over the entries
    [listing] of the directory, less the finalized ones. *)
Definition tmp_dirs (self : OrbaxCheckpointManager) (listing : list string)
  : list Path :=
  List.filter (fun f => negb (is_checkpoint_item_finalized f))
    (child (directory self) <$>
     List.filter (String.prefix CHECKPOINT_PREFIX) listing).

(** [_cleanup_tmp_directories]; [is_mock_tpu_backend] is
    [py_utils.is_mock_tpu_backend()], [listing] the entries of the
    manager's directory. *)
Definition _cleanup_tmp_directories (is_mock_tpu_backend : bool)
    (process_index : Z) (self : OrbaxCheckpointManager)
    (listing : list string) (fs : FS) : result FS :=
  if is_mock_tpu_backend then Ok fs
  else
    let tmp_dirs := tmp_dirs self listing in
    if process_index =? 0 then remove_tmp_dirs tmp_dirs fs else Ok fs.

End manager.

End checkpoint_managers.

(** ** experiment_lib.py *)

Module experiment_lib.

(** [s.rsplit('.', 1)[0]]: what precedes the last dot, the whole string
    when there is none. *)
Fixpoint before_last_dot (s : string) : option string :=
  match s with
  | EmptyString => None
  | String c s' =>
    match before_last_dot s' with
    | Some p => Some (String c p)
    | None => if Ascii.eqb c "." then Some EmptyString else None
    end
  end.

Definition rsplit_dot_head (s : string) : string :=
  default s (before_last_dot s).

Definition could_not_find (experiment_name : string) : exn :=
  ValueError ("Could not find experiment `" +:+ experiment_name +:+ "`.").

Section registry.

(** An experiment class. *)
Variable BaseExperimentT : Type.

(** [importlib.import_module] runs a module, which may register
    experiments, or raises. *)
Variable import_module :
  string -> gmap string BaseExperimentT -> result (gmap string BaseExperimentT).

(** [get_experiment], with the global registry as explicit state: the class
    and the registry after the call. *)
Definition get_experiment (registry : gmap string BaseExperimentT)
    (experiment_name : string)
  : result (BaseExperimentT * gmap string BaseExperimentT) :=
  match registry !! experiment_name with
  | Some experiment_class => Ok (experiment_class, registry)
  | None =>
    let module_name := rsplit_dot_head experiment_name in
    match import_module module_name registry with
    | Raise (ModuleNotFoundError _) => Raise (could_not_find experiment_name)
    | Raise e => Raise e
    | Ok registry' =>
      match registry' !! experiment_name with
      | Some experiment_class => Ok (experiment_class, registry')
      | None => Raise (could_not_find experiment_name)
      end
    end
  end.

End registry.

End experiment_lib.

(** ** tuning_lib.py *)

Module tuning_lib.

(** Metric dictionaries.  The annotations say [Dict[str, float]]; a value
    may still be [None] (see [_aggregate_metrics]), hence [option float]. *)
Abbreviation Metrics := (gmap string (option float)).

Definition SUB_EXPERIMENT_STEP_INTERVAL : Z := 1000000000.

(** Modelled from the spec: [automl.SUB_EXPERIMENT_STEP_OFFSET], the fixed
    constant by which each sub-experiment's step range is offset,
    1,000,000,000. *)
Definition SUB_EXPERIMENT_STEP_OFFSET : Z := 1000000000.

(** Modelled from the spec: [trainer_lib.RunningMode], a set of the flags
    TRAIN, EVAL and DECODE; [mode & RunningMode.EVAL] is truthy exactly when
    the eval mode is active, and likewise for decode. *)
Record RunningMode := {
  has_train : bool;
  has_eval : bool;
  has_decode : bool
}.

(** *** Metric aggregation *)

(** Modelled from the spec: [metric_utils.update_float_dict], which writes
    every item of [source] into [target], under the key
    [<prefix>/<metric_name>] when a prefix is given and under its own key
    otherwise. *)
Definition update_float_dict (target source : Metrics) (prefix : option string)
  : Metrics :=
  match prefix with
  | None => source ∪ target
  | Some p => map_fold (fun k v acc => <[p +:+ "/" +:+ k := v]> acc) target source
  end.

Record BaseInputHParams := { name : string }.

Record EvalMetrics := {
  input_p : option (list BaseInputHParams);
  metrics_list : option (list (option Metrics));
  scoring_metrics_list : option (list (option Metrics));
  steps_per_sec : option float
}.

Record DecodeMetrics := {
  d_input_p : option (list BaseInputHParams);
  d_metrics_list : option (list (option Metrics));
  processed_metrics_list : option (list (option Metrics));
  seqio_metrics_list : option (list (option Metrics));
  d_steps_per_sec : option float
}.

(** The prefix built for one dataset inside [_add_input_based_metrics]. *)
Definition dataset_prefix (p : BaseInputHParams)
    (dataset_type category : option string) : string :=
  let prefix := name p in
  let prefix :=
    match dataset_type with
    | Some t => t +:+ "_" +:+ prefix
    | None => prefix
    end in
  match category with
  | Some c => prefix +:+ "/" +:+ c
  | None => prefix
  end.

(** The loop over [zip(input_p, metrics_list)] that fills [merged]. *)
Definition merge_datasets (dataset_type category : option string)
    (pairs : list (BaseInputHParams * option Metrics)) (merged : Metrics)
  : Metrics :=
  fold_left
    (fun merged pm =>
       match pm.2 with
       | Some m =>
         update_float_dict merged m
           (Some (dataset_prefix pm.1 dataset_type category))
       | None => merged
       end)
    pairs merged.

Definition _add_input_based_metrics (metrics : Metrics)
    (input_p : option (list BaseInputHParams))
    (metrics_list : option (list (option Metrics)))
    (dataset_type category : option string) : result Metrics :=
  match input_p, metrics_list with
  | Some ps, Some ms =>
    if decide (length ps = length ms) then
      let merged := merge_datasets dataset_type category (zip ps ms) ∅ in
      Ok (update_float_dict metrics merged None)
    else Raise AssertionError
  | _, _ => Ok metrics
  end.

Definition _add_metric_if_not_none (metrics : Metrics) (name : string)
    (value : option float) : Metrics :=
  match value with
  | Some v => <[name := Some v]> metrics
  | None => metrics
  end.

Definition _aggregate_metrics
    (train_metrics eval_train_metrics : option Metrics)
    (eval_metrics : option EvalMetrics)
    (decode_metrics : option DecodeMetrics)
    (num_params train_steps_per_sec : option float) : result Metrics :=
  let metrics : Metrics := ∅ in
  let metrics :=
    match train_metrics with
    | Some t => update_float_dict metrics t (Some "train")
    | None => metrics
    end in
  let metrics :=
    match eval_train_metrics with
    | Some t => update_float_dict metrics t (Some "eval_train/metrics")
    | None => metrics
    end in
  metrics <-
    match eval_metrics with
    | Some em =>
      metrics <- _add_input_based_metrics metrics (input_p em)
                   (metrics_list em) (Some "eval_test") (Some "metrics") ;;
      _add_input_based_metrics metrics (input_p em)
        (scoring_metrics_list em) (Some "eval_test") (Some "scoring_eval")
    | None => Ok metrics
    end ;;
  metrics <-
    match decode_metrics with
    | Some dm =>
      metrics <- _add_input_based_metrics metrics (d_input_p dm)
                   (d_metrics_list dm) (Some "decode_test") None ;;
      metrics <- _add_input_based_metrics metrics (d_input_p dm)
                   (processed_metrics_list dm) (Some "decode_test") None ;;
      _add_input_based_metrics metrics (d_input_p dm)
        (seqio_metrics_list dm) (Some "decode_test") None
    | None => Ok metrics
    end ;;
  let metrics :=
    _add_metric_if_not_none metrics "train_steps_per_sec" train_steps_per_sec in
  let metrics :=
    match eval_metrics with
    | Some em => <["eval_steps_per_sec" := steps_per_sec em]> metrics
    | None => metrics
    end in
  let metrics :=
    match decode_metrics with
    | Some dm => <["decode_steps_per_sec" := d_steps_per_sec dm]> metrics
    | None => metrics
    end in
  Ok (_add_metric_if_not_none metrics "num_params" num_params).

(** *** The last checkpoint *)

Definition is_last_checkpoint (running_mode : RunningMode)
    (global_step num_train_steps eval_interval_steps decode_interval_steps
     save_interval_steps : Z) : bool :=
  let remaining := num_train_steps - global_step in
  let is_last := remaining =? 0 in
  if negb is_last then
    let last_eval :=
      if has_eval running_mode
      then remaining <? Z.max eval_interval_steps save_interval_steps
      else false in
    let last_decode :=
      if has_decode running_mode
      then remaining <? Z.max decode_interval_steps save_interval_steps
      else false in
    last_eval || last_decode
  else is_last.

(** *** The tuning loop *)

Record Measurement := {
  m_reward : float;
  m_step : Z;
  m_metrics : Metrics;
  m_checkpoint_path : option string
}.

Inductive TrialStatus :=
| Pending
| Completed
| Skipped (reason : string).

(** [pg.tuning.Feedback], the handle on one trial of the search controller:
    its id, the measurements reported so far and its disposition. *)
Record Feedback := {
  id : Z;
  measurements : list Measurement;
  status : TrialStatus
}.

Definition add_measurement (reward : float) (metrics : Metrics) (step : Z)
    (checkpoint_path : option string) (fb : Feedback) : Feedback :=
  {| id := id fb;
     measurements :=
       measurements fb ++
       [{| m_reward := reward; m_step := step; m_metrics := metrics;
           m_checkpoint_path := checkpoint_path |}];
     status := status fb |}.

Definition done (fb : Feedback) : Feedback :=
  {| id := id fb; measurements := measurements fb; status := Completed |}.

Definition skip (reason : string) (fb : Feedback) : Feedback :=
  {| id := id fb; measurements := measurements fb; status := Skipped reason |}.

(** Code that acts on a feedback object and may raise: the outcome and the
    feedback as the code left it. *)
Definition M (A : Type) := Feedback -> result A * Feedback.

Definition ret {A} (a : A) : M A := fun fb => (Ok a, fb).

Definition raise {A} (e : exn) : M A := fun fb => (Raise e, fb).

Definition act (f : Feedback -> Feedback) : M unit := fun fb => (Ok tt, f fb).

Definition mbind {A B} (c : M A) (k : A -> M B) : M B :=
  fun fb =>
    match c fb with
    | (Ok a, fb') => k a fb'
    | (Raise e, fb') => (Raise e, fb')
    end.

Notation "c >> k" := (mbind c (fun _ => k))
  (at level 90, right associativity).

Definition when (b : bool) (c : M unit) : M unit := if b then c else ret tt.

(** [try: body except: handler]; a handler answers [None] for an exception
    it does not catch. *)
Definition try_except (body : M unit) (handler : exn -> option (M unit))
  : M unit :=
  fun fb =>
    match body fb with
    | (Raise e, fb') =>
      match handler e with
      | Some h => h fb'
      | None => (Raise e, fb')
      end
    | ok => ok
    end.

(** The external training loop as [tune] sees it: it ends, raises, or calls
    the early-stopping function and goes on according to the answer; an
    exception of the early-stopping function leaves through it. *)
Inductive TrialProgram :=
| Finish
| Raises (e : exn)
| Report (metrics : Metrics) (running_mode : RunningMode) (global_step : Z)
    (is_last_ckpt : bool) (continue : bool -> TrialProgram).

Definition EarlyStoppingFn := Metrics -> RunningMode -> Z -> bool -> M bool.

Fixpoint trial_fn (program : TrialProgram) (early_stopping_fn : EarlyStoppingFn)
  : M unit :=
  match program with
  | Finish => ret tt
  | Raises e => raise e
  | Report metrics running_mode global_step is_last_ckpt continue =>
    mbind (early_stopping_fn metrics running_mode global_step is_last_ckpt)
      (fun stop => trial_fn (continue stop) early_stopping_fn)
  end.

(** An entry of the list handed to [skip_on_exceptions]: an exception class. *)
Definition ErrorClass := exn -> bool.

Definition FloatingPointError_class : ErrorClass :=
  fun e => match e with FloatingPointError _ => true | _ => false end.

(** [str(e)], rendered with the class in front. *)
Definition describe (e : exn) : string :=
  match e with
  | ValueError msg => "ValueError: " +:+ msg
  | AssertionError => "AssertionError"
  | ZeroDivisionError => "ZeroDivisionError"
  | TypeError => "TypeError"
  | FloatingPointError msg => "FloatingPointError: " +:+ msg
  | ModuleNotFoundError m => "ModuleNotFoundError: " +:+ m
  | FileExistsError => "FileExistsError"
  | NotADirectoryError => "NotADirectoryError"
  | NotFoundError => "NotFoundError"
  | AlreadyExistsError => "AlreadyExistsError"
  | InvalidArgumentError => "InvalidArgumentError"
  | FailedPreconditionError => "FailedPreconditionError"
  | EarlyStoppingError _ => "EarlyStoppingError"
  | OtherError cls msg => cls +:+ ": " +:+ msg
  end.

(** [feedback.skip_on_exceptions(classes)]: an exception of a listed class
    that leaves the scope marks the trial skipped, with the exception's
    description as the reason, and goes no further. *)
Definition skip_on_exceptions (classes : list ErrorClass) (body : M unit)
  : M unit :=
  try_except body
    (fun e =>
       if existsb (fun c => c e) classes
       then Some (act (skip (describe e)))
       else None).

(** [{f'{k}:{sub_experiment_id}': v for k, v in metrics.items()}]. *)
Definition suffix_keys (sub_experiment_id : string) (metrics : Metrics)
  : Metrics :=
  map_fold (fun k v acc => <[k +:+ ":" +:+ sub_experiment_id := v]> acc)
    ∅ metrics.

(** [s or d] on an optional string. *)
Definition str_or (s : option string) (d : string) : string :=
  match s with
  | None => d
  | Some EmptyString => d
  | Some s => s
  end.

Section tuning.

(** [jax.process_index()]. *)
Variable process_index : Z.

(** The reward function of the search. *)
Variable reward_fn : Metrics -> Z -> float.

(** The cross-step metric aggregator of the search. *)
Variable cross_step_metric_aggregator : list (Z * Metrics) -> Metrics.

(** [feedback.should_stop_early()], the controller's verdict. *)
Variable controller_should_stop_early : Feedback -> bool.

Definition _add_final_measurement (global_step : Z) : M unit :=
  fun fb =>
    let metrics_across_steps :=
      (fun m => (m_step m, <["reward" := Some (m_reward m)]> (m_metrics m)))
        <$> measurements fb in
    let final_metrics := cross_step_metric_aggregator metrics_across_steps in
    let final_metrics := delete "reward" final_metrics in
    let final_reward := reward_fn final_metrics global_step in
    (Ok tt, add_measurement final_reward final_metrics global_step None fb).

(** The function returned by [_get_early_stopping_fn]. *)
Definition should_stop_early (sub_experiment_id : string)
    (is_metric_reporting_role is_last_experiment : bool)
    (tuning_step_start : Z) : EarlyStoppingFn :=
  fun metrics running_mode global_step is_last_ckpt =>
    when is_metric_reporting_role (
      let tuning_step := tuning_step_start + global_step in
      when ((process_index =? 0) &&
            (has_eval running_mode || has_decode running_mode)) (
        let metrics :=
          if decide (sub_experiment_id = EmptyString) then metrics
          else suffix_keys sub_experiment_id metrics in
        let reward := reward_fn metrics tuning_step in
        if PrimFloat.is_nan reward
        then raise (FloatingPointError "Reward is NaN.")
        else act (add_measurement reward metrics tuning_step None)) >>
      when is_last_ckpt (
        when (is_last_experiment && (process_index =? 0)) (
          _add_final_measurement (tuning_step + 1) >>
          act done))) >>
    (fun fb => (Ok (controller_should_stop_early fb), fb)).

Definition _get_early_stopping_fn := should_stop_early.

(** The loop over [enumerate(sub_experiments.items())], from index [i] on;
    [total] is [len(sub_experiments)]. *)
Fixpoint run_sub_experiments (is_metric_reporting_role : bool) (total : nat)
    (i : nat) (sub_experiments : list (string * TrialProgram)) : M unit :=
  match sub_experiments with
  | [] => ret tt
  | (sub_experiment_id, program) :: rest =>
    trial_fn program
      (_get_early_stopping_fn sub_experiment_id is_metric_reporting_role
         (Z.of_nat i =? Z.of_nat total - 1)
         (Z.of_nat i * SUB_EXPERIMENT_STEP_OFFSET)) >>
    run_sub_experiments is_metric_reporting_role total (S i) rest
  end.

(** The handler of [except automl.EarlyStoppingError as e]. *)
Definition on_early_stopping (e : EarlyStop) : M unit :=
  when (process_index =? 0) (
    if es_skip e then act (skip (str_or (es_skip_reason e) "Unknown."))
    else
      let reward :=
        match es_reward e with
        | Some r => r
        | None => reward_fn (es_metrics e) (es_step e)
        end in
      act (add_measurement reward (es_metrics e) (es_step e) (es_checkpoint e))
      >> act done).

(** The body of one iteration of the tuning loop, from
    [with feedback.skip_on_exceptions(...)] on. *)
Definition run_trial (is_metric_reporting_role : bool)
    (errors_to_skip : list ErrorClass)
    (sub_experiments : list (string * TrialProgram)) : M unit :=
  skip_on_exceptions (FloatingPointError_class :: errors_to_skip)
    (try_except
       (run_sub_experiments is_metric_reporting_role
          (length sub_experiments) 0 sub_experiments)
       (fun e =>
          match e with
          | EarlyStoppingError e => Some (on_early_stopping e)
          | _ => None
          end)).

(** A trial as sampled by the controller: its feedback object and what its
    sub-experiments do under the trial's decisions. *)
Record Trial := {
  feedback : Feedback;
  sub_experiments : list (string * TrialProgram)
}.

(** The tuning loop of [tune] over the sampled trials: the feedback objects
    of the trials worked on, and the exception that ended the loop if one
    did. *)
Fixpoint tune_loop (is_metric_reporting_role : bool)
    (errors_to_skip : list ErrorClass) (trials : list Trial)
  : list Feedback * option exn :=
  match trials with
  | [] => ([], None)
  | t :: rest =>
    match run_trial is_metric_reporting_role errors_to_skip
            (sub_experiments t) (feedback t) with
    | (Ok _, fb) =>
      let r := tune_loop is_metric_reporting_role errors_to_skip rest in
      (fb :: r.1, r.2)
    | (Raise e, fb) => ([fb], Some e)
    end
  end.

End tuning.

(** *** Python strings *)

Definition LF : ascii := ascii_of_nat 10.

Definition startswith (s p : string) : bool := String.prefix p s.

(** [s.endswith(p)]: some suffix of [s] is [p]. *)
Fixpoint endswith (s p : string) : bool :=
  String.eqb s p ||
  match s with
  | EmptyString => false
  | String _ s' => endswith s' p
  end.

Fixpoint drop_last (s : string) : string :=
  match s with
  | EmptyString => EmptyString
  | String c EmptyString => EmptyString
  | String c s' => String c (drop_last s')
  end.

Definition tail (s : string) : string :=
  match s with
  | EmptyString => EmptyString
  | String _ s' => s'
  end.

(** [s[1:-1]]. *)
Definition slice_1_m1 (s : string) : string := drop_last (tail s).

Fixpoint strip_start (p s : string) : option string :=
  match p, s with
  | EmptyString, _ => Some s
  | String _ _, EmptyString => None
  | String a p', String b s' =>
    if Ascii.eqb a b then strip_start p' s' else None
  end.

Definition strip_end (p s : string) : option string :=
  String.rev <$> strip_start (String.rev p) (String.rev s).

Fixpoint contains (c : ascii) (s : string) : bool :=
  match s with
  | EmptyString => false
  | String a s' => Ascii.eqb a c || contains c s'
  end.

(** [s.split('.')[-1]]. *)
Fixpoint after_last_dot (s : string) : string :=
  match s with
  | EmptyString => EmptyString
  | String c s' =>
    if contains "." s' then after_last_dot s'
    else if Ascii.eqb c "." then s' else String c s'
  end.

(** What [$] allows at the end of a match: a single final newline. *)
Definition without_final_newline (s : string) : string :=
  if endswith s (String LF EmptyString) then drop_last s else s.

Definition is_path_char (c : ascii) : bool :=
  let n := nat_of_ascii c in
  ((65 <=? n) && (n <=? 90) || (97 <=? n) && (n <=? 122) ||
   (48 <=? n) && (n <=? 57))%nat ||
  Ascii.eqb c "-" || Ascii.eqb c "_" || Ascii.eqb c ".".

Fixpoint all_chars (f : ascii -> bool) (s : string) : bool :=
  match s with
  | EmptyString => true
  | String c s' => f c && all_chars f s'
  end.

(** [bool(re.match(r'^[A-Za-z0-9\-_\.]+$', v))]. *)
Definition path_friendly (v : string) : bool :=
  let body := without_final_newline v in
  negb (String.eqb body EmptyString) && all_chars is_path_char body.

(** [re.match(r'^<class \'(.+)\'>$', literal)], the group when it matches. *)
Definition match_class_repr (literal : string) : option string :=
  match strip_start "<class '" literal with
  | None => None
  | Some rest =>
    match strip_end "'>" (without_final_newline rest) with
    | None => None
    | Some g =>
      if negb (String.eqb g EmptyString) && negb (contains LF g)
      then Some g else None
    end
  end.

(** [posixpath.join(a, *p)]. *)
Definition os_path_join (a : string) (p : list string) : string :=
  fold_left
    (fun path b =>
       if startswith b "/" then b
       else if String.eqb path EmptyString || endswith path "/"
            then path +:+ b
            else path +:+ "/" +:+ b)
    p a.

Fixpoint join (sep : string) (items : list string) : string :=
  match items with
  | [] => EmptyString
  | [x] => x
  | x :: rest => x +:+ sep +:+ join sep rest
  end.

(** *** [f'{x:.3e}'] *)

Definition zero_pad (width : nat) (n : Z) : string :=
  let s := pretty n in
  String.concat EmptyString (repeat "0"%string (width - String.length s)) +:+ s.

Definition exponent_str (k : Z) : string :=
  (if k <? 0 then "-" else "+") +:+ zero_pad 2 (Z.abs k).

(** The decimal exponent of the positive rational [num / den]. *)
Definition decimal_exponent (num den : Z) : Z :=
  if den <=? num then Z.of_nat (String.length (pretty (num / den))) - 1
  else - Z.of_nat (String.length (pretty ((den - 1) / num))).

(** [n / d] rounded to the nearest integer, a tie to the even one. *)
Definition round_half_even (n d : Z) : Z :=
  let q := n / d in
  let r := n mod d in
  if (d <? 2 * r) || ((d =? 2 * r) && Z.odd q) then q + 1 else q.

Definition format_3e_pos (num den : Z) : string :=
  let k := decimal_exponent num den in
  let m :=
    if k <=? 3 then round_half_even (num * 10 ^ (3 - k)) den
    else round_half_even num (den * 10 ^ (k - 3)) in
  let mk := if m =? 10000 then (1000, k + 1) else (m, k) in
  pretty (mk.1 / 1000) +:+ "." +:+ zero_pad 3 (mk.1 mod 1000) +:+
  "e" +:+ exponent_str mk.2.

(** The correctly rounded rendering of a binary64 value with one digit
    before and three after the point. *)
Definition format_3e (x : float) : string :=
  match Prim2SF x with
  | S754_nan => "nan"
  | S754_infinity s => if s then "-inf" else "inf"
  | S754_zero s => (if s then "-" else "") +:+ "0.000e+00"
  | S754_finite s m e =>
    (if s then "-" else "") +:+
    (if 0 <=? e then format_3e_pos (Zpos m * 2 ^ e) 1
     else format_3e_pos (Zpos m) (2 ^ (- e)))
  end.

(** *** Trial directory names *)

(** A literal value of a candidate: [Union[str, int, float]]. *)
Inductive Literal :=
| LInt (n : Z)
| LFloat (x : float)
| LStr (s : string).

(** [pg.geno] decision points, each with its name. *)
Inductive DecisionPoint :=
| CustomDecisionPoint (name : string)
| Choices (name : string) (literal_values : list Literal)
| Float (name : string).

Definition dp_name (dp : DecisionPoint) : string :=
  match dp with
  | CustomDecisionPoint n => n
  | Choices n _ => n
  | Float n => n
  end.

(** The decision a DNA holds for one decision point: the index of the chosen
    candidate, the chosen float, or a custom string. *)
Inductive Decision :=
| ChoiceDecision (value : Z)
| FloatDecision (value : float)
| CustomDecision (value : string).

(** A DNA: the decision bound to each decision point, by the point's name. *)
Abbreviation DNA := (gmap string Decision).

Inductive DecisionFormat := EMPTY | VALUE | LITERAL.

Record TrialDirectoryNameGenerator := {
  _root_dir : string;
  _include_decision_names : bool;
  _decision_formats : list (DecisionPoint * DecisionFormat);
  _formatted_categorical_literals : gmap string string
}.

Definition _format_categorical (literal : string) : string :=
  if startswith literal "'" && endswith literal "'" then slice_1_m1 literal
  else
    match
      (if startswith literal "<class" then match_class_repr literal else None)
    with
    | Some qual_name => after_last_dot qual_name
    | None => literal
    end.

(** [format_literal], with the cache of formatted categorical literals as
    explicit state. *)
Definition format_literal (cache : gmap string string) (literal : Literal)
  : string * gmap string string :=
  match literal with
  | LInt n => (pretty n, cache)
  | LFloat x => (format_3e x, cache)
  | LStr s =>
    match cache !! s with
    | Some formatted => (formatted, cache)
    | None =>
      let formatted := _format_categorical s in
      (formatted, <[s := formatted]> cache)
    end
  end.

(** [all(path_friendly(self.format_literal(v)) for v in literal_values)]:
    it stops at the first literal that is not path friendly. *)
Fixpoint all_path_friendly (cache : gmap string string) (vs : list Literal)
  : bool * gmap string string :=
  match vs with
  | [] => (true, cache)
  | v :: rest =>
    let r := format_literal cache v in
    if path_friendly r.1 then all_path_friendly r.2 rest else (false, r.2)
  end.

(** The loop of [__init__] over [dna_spec.decision_points]. *)
Fixpoint decide_formats (cache : gmap string string)
    (decision_points : list DecisionPoint)
  : list (DecisionPoint * DecisionFormat) * Z * gmap string string :=
  match decision_points with
  | [] => ([], 0, cache)
  | dp :: rest =>
    let fc :=
      match dp with
      | CustomDecisionPoint _ => (EMPTY, cache)
      | Choices _ literal_values =>
        let r := all_path_friendly cache literal_values in
        (if r.1 then LITERAL else VALUE, r.2)
      | Float _ => (VALUE, cache)
      end in
    let '(formats, total_key_len, cache') := decide_formats fc.2 rest in
    ((dp, fc.1) :: formats,
     Z.of_nat (String.length (dp_name dp)) + total_key_len, cache')
  end.

Definition new_generator (root_dir : string)
    (decision_points : list DecisionPoint) (total_name_length_threshold : Z)
  : TrialDirectoryNameGenerator :=
  let '(formats, total_key_len, cache) := decide_formats ∅ decision_points in
  {| _root_dir := root_dir;
     _include_decision_names := total_key_len <? total_name_length_threshold;
     _decision_formats := formats;
     _formatted_categorical_literals := cache |}.

(** The value rendered for one decision point in [dirname]; a decision that
    is missing fails the assertion, one of the wrong kind for its point is a
    [TypeError], an index outside the candidates an [IndexError]. *)
Definition decision_value (cache : gmap string string) (dna : DNA)
    (dp : DecisionPoint) (fmt : DecisionFormat)
  : result string * gmap string string :=
  match dna !! dp_name dp with
  | None => (Raise AssertionError, cache)
  | Some decision =>
    match fmt with
    | EMPTY => (Ok "(CUSTOM)"%string, cache)
    | LITERAL =>
      match dp, decision with
      | Choices _ literal_values, ChoiceDecision i =>
        match (if 0 <=? i then literal_values !! Z.to_nat i else None) with
        | Some literal =>
          let r := format_literal cache literal in (Ok r.1, r.2)
        | None => (Raise (OtherError "IndexError" ""), cache)
        end
      | Choices _ _, _ => (Raise TypeError, cache)
      | _, _ => (Raise AssertionError, cache)
      end
    | VALUE =>
      match dp, decision with
      | Float _, FloatDecision x =>
        let r := format_literal cache (LFloat x) in (Ok r.1, r.2)
      | Float _, _ => (Raise TypeError, cache)
      | Choices _ _, ChoiceDecision i => (Ok ("(" +:+ pretty i +:+ ")"), cache)
      | Choices _ _, _ => (Raise TypeError, cache)
      | CustomDecisionPoint _, _ => (Raise AssertionError, cache)
      end
    end
  end.

(** The loop of [dirname] that fills [kv_pairs]. *)
Fixpoint kv_pairs (cache : gmap string string) (dna : DNA)
    (formats : list (DecisionPoint * DecisionFormat))
  : result (list (string * string)) * gmap string string :=
  match formats with
  | [] => (Ok [], cache)
  | (dp, fmt) :: rest =>
    match decision_value cache dna dp fmt with
    | (Raise e, cache') => (Raise e, cache')
    | (Ok v, cache') =>
      match kv_pairs cache' dna rest with
      | (Raise e, cache'') => (Raise e, cache'')
      | (Ok kvs, cache'') => (Ok ((dp_name dp, v) :: kvs), cache'')
      end
    end
  end.

Definition with_cache (self : TrialDirectoryNameGenerator)
    (cache : gmap string string) : TrialDirectoryNameGenerator :=
  {| _root_dir := _root_dir self;
     _include_decision_names := _include_decision_names self;
     _decision_formats := _decision_formats self;
     _formatted_categorical_literals := cache |}.

(** [dirname]: the path, and the generator with its cache as the call left
    it. *)
Definition dirname (self : TrialDirectoryNameGenerator) (trial_id : Z)
    (dna : DNA) : result string * TrialDirectoryNameGenerator :=
  match kv_pairs (_formatted_categorical_literals self) dna
          (_decision_formats self) with
  | (Raise e, cache) => (Raise e, with_cache self cache)
  | (Ok kvs, cache) =>
    let items :=
      if _include_decision_names self
      then (fun kv => kv.1 +:+ "=" +:+ kv.2) <$> kvs
      else snd <$> kvs in
    (Ok (os_path_join (_root_dir self) [pretty trial_id; join "|" items]),
     with_cache self cache)
  end.

End tuning_lib.

(** * Specifications

    The definitions the properties are stated with. *)

(** ** Checkpoint cadence *)

Module checkpoint_managers_spec.

Import checkpoint_managers.

(** The step saved last among the answers given so far. *)
Fixpoint last_saved (answers : list (Z * bool)) : option Z :=
  match answers with
  | [] => None
  | (s, b) :: rest =>
    match last_saved rest with
    | Some l => Some l
    | None => if b then Some s else None
    end
  end.

Section cadence.

Variable reached_preemption_sync_point : Z -> bool.

(** The answers [submit] gives, computed from the interval and the last
    saved step alone. *)
Fixpoint cadence (n : Z) (last : option Z) (steps : list Z) : list (Z * bool) :=
  match steps with
  | [] => []
  | s :: rest =>
    let b :=
      reached_preemption_sync_point s ||
      match last with
      | None => true
      | Some l => (l <? s) && (s mod n =? 0)
      end in
    (s, b) :: cadence n (if b then Some s else last) rest
  end.

(** The answers on a strictly increasing run of steps: after the first
    call only the preemption signal and the period count. *)
Fixpoint periodic (n : Z) (fresh : bool) (steps : list Z) : list (Z * bool) :=
  match steps with
  | [] => []
  | s :: rest =>
    (s, reached_preemption_sync_point s || fresh || (s mod n =? 0)) ::
    periodic n false rest
  end.

End cadence.

(** The steps for which the answer was to save, in the order submitted. *)
Definition saved_steps (answers : list (Z * bool)) : list Z :=
  (List.filter snd answers).*1.

(** The paths at or below one of the directories [dirs]. *)
Definition under_any (dirs : list Path) (q : Path) : bool :=
  existsb (fun d => is_prefix d q) dirs.

(** A directory that does not lie at or above another. *)
Definition apart (d d' : Path) : Prop := is_prefix d d' = false.

(** A name that is one segment of a path: not empty, without a slash, and
    neither ['.'] nor ['..']. *)
Definition segment (s : string) : Prop :=
  s <> ""%string /\ s <> "."%string /\ s <> ".."%string /\
  has_slash s = false.

End checkpoint_managers_spec.

(** ** Metric layers, directory names and NaN rewards *)

Module tuning_lib_spec.

Import tuning_lib.

(** The key under which [update_float_dict] files a metric. *)
Definition prefixed_key (p k : string) : string := p +:+ "/" +:+ k.

(** What one source contributes under a prefix. *)
Definition prefixed (p : string) (source : Metrics) : Metrics :=
  kmap (prefixed_key p) source.

(** What the datasets of one list contribute: a later dataset is written
    later and so stands in front. *)
Fixpoint datasets_layer (dataset_type category : option string)
    (pairs : list (BaseInputHParams * option Metrics)) : Metrics :=
  match pairs with
  | [] => ∅
  | pm :: rest =>
    datasets_layer dataset_type category rest ∪
    match pm.2 with
    | Some m => prefixed (dataset_prefix pm.1 dataset_type category) m
    | None => ∅
    end
  end.

Definition family_layer (dataset_type category : option string)
    (input_p : option (list BaseInputHParams))
    (metrics_list : option (list (option Metrics))) : Metrics :=
  match input_p, metrics_list with
  | Some ps, Some ms => datasets_layer dataset_type category (zip ps ms)
  | _, _ => ∅
  end.

(** The assertion of [_add_input_based_metrics] holds. *)
Definition lengths_agree (input_p : option (list BaseInputHParams))
    (metrics_list : option (list (option Metrics))) : bool :=
  match input_p, metrics_list with
  | Some ps, Some ms => bool_decide (length ps = length ms)
  | _, _ => true
  end.

Definition scalar_layer (name : string) (value : option float) : Metrics :=
  match value with
  | Some v => {[ name := Some v ]}
  | None => ∅
  end.

Definition optional_layer (p : string) (source : option Metrics) : Metrics :=
  match source with
  | Some t => prefixed p t
  | None => ∅
  end.

Definition eval_layers (eval_metrics : option EvalMetrics) : list Metrics :=
  match eval_metrics with
  | Some em =>
    [family_layer (Some "eval_test") (Some "scoring_eval") (input_p em)
       (scoring_metrics_list em);
     family_layer (Some "eval_test") (Some "metrics") (input_p em)
       (metrics_list em)]
  | None => []
  end.

Definition decode_layers (decode_metrics : option DecodeMetrics)
  : list Metrics :=
  match decode_metrics with
  | Some dm =>
    [family_layer (Some "decode_test") None (d_input_p dm)
       (seqio_metrics_list dm);
     family_layer (Some "decode_test") None (d_input_p dm)
       (processed_metrics_list dm);
     family_layer (Some "decode_test") None (d_input_p dm)
       (d_metrics_list dm)]
  | None => []
  end.

Definition steps_per_sec_layer {A} (name : string) (bundle : option A)
    (steps : A -> option float) : Metrics :=
  match bundle with
  | Some b => {[ name := steps b ]}
  | None => ∅
  end.

(** The sources of [_aggregate_metrics], the one written last first. *)
Definition layers (train_metrics eval_train_metrics : option Metrics)
    (eval_metrics : option EvalMetrics) (decode_metrics : option DecodeMetrics)
    (num_params train_steps_per_sec : option float) : list Metrics :=
  [scalar_layer "num_params" num_params;
   steps_per_sec_layer "decode_steps_per_sec" decode_metrics d_steps_per_sec;
   steps_per_sec_layer "eval_steps_per_sec" eval_metrics steps_per_sec;
   scalar_layer "train_steps_per_sec" train_steps_per_sec] ++
  decode_layers decode_metrics ++
  eval_layers eval_metrics ++
  [optional_layer "eval_train/metrics" eval_train_metrics;
   optional_layer "train" train_metrics].

Definition assertions_hold (eval_metrics : option EvalMetrics)
    (decode_metrics : option DecodeMetrics) : bool :=
  match eval_metrics with
  | Some em =>
    lengths_agree (input_p em) (metrics_list em) &&
    lengths_agree (input_p em) (scoring_metrics_list em)
  | None => true
  end &&
  match decode_metrics with
  | Some dm =>
    lengths_agree (d_input_p dm) (d_metrics_list dm) &&
    lengths_agree (d_input_p dm) (processed_metrics_list dm) &&
    lengths_agree (d_input_p dm) (seqio_metrics_list dm)
  | None => true
  end.

(** The four keys written after the metric families. *)
Definition scalar_name (key : string) : Prop :=
  key = "train_steps_per_sec"%string \/ key = "eval_steps_per_sec"%string \/
  key = "decode_steps_per_sec"%string \/ key = "num_params"%string.

(** The inputs of the example: one metric [a] per family, on a dataset
    [d]. *)
Definition metric_a (x : float) : Metrics := {[ "a"%string := Some x ]}.

Definition dataset_d : list BaseInputHParams := [{| name := "d" |}].

Definition eval_a (x : float) : EvalMetrics :=
  {| input_p := Some dataset_d; metrics_list := Some [Some (metric_a x)];
     scoring_metrics_list := None; steps_per_sec := None |}.

Definition decode_a (x y z : float) : DecodeMetrics :=
  {| d_input_p := Some dataset_d; d_metrics_list := Some [Some (metric_a x)];
     processed_metrics_list := Some [Some (metric_a y)];
     seqio_metrics_list := Some [Some (metric_a z)];
     d_steps_per_sec := None |}.

(** The characters of a rendered integer. *)
Definition is_int_char (c : ascii) : bool :=
  let n := nat_of_ascii c in
  ((48 <=? n) && (n <=? 57))%nat || Ascii.eqb c "-".

(** Every cached literal is cached with its formatting. *)
Definition cache_ok (cache : gmap string string) : Prop :=
  forall s v, cache !! s = Some v -> v = _format_categorical s.

(** How a literal value is rendered: an integer as it is, a float with one
    digit before and three after the point, a categorical literal
    cleaned. *)
Definition render_literal (literal : Literal) : string :=
  match literal with
  | LInt n => pretty n
  | LFloat x => format_3e x
  | LStr s => _format_categorical s
  end.

(** Whether all the candidates of a choice render path friendly. *)
Definition literals_path_friendly (literal_values : list Literal) : bool :=
  forallb (fun v => path_friendly (render_literal v)) literal_values.

(** How one decision is rendered. *)
Definition render_decision (dp : DecisionPoint) (decision : Decision)
  : result string :=
  match dp, decision with
  | CustomDecisionPoint _, _ => Ok "(CUSTOM)"%string
  | Float _, FloatDecision x => Ok (format_3e x)
  | Choices _ literal_values, ChoiceDecision i =>
    if literals_path_friendly literal_values then
      match (if 0 <=? i then literal_values !! Z.to_nat i else None) with
      | Some literal => Ok (render_literal literal)
      | None => Raise (OtherError "IndexError" "")
      end
    else Ok ("(" +:+ pretty i +:+ ")")
  | _, _ => Raise TypeError
  end.

Fixpoint render_decisions (dna : DNA) (decision_points : list DecisionPoint)
  : result (list (string * string)) :=
  match decision_points with
  | [] => Ok []
  | dp :: rest =>
    v <- match dna !! dp_name dp with
         | Some decision => render_decision dp decision
         | None => Raise AssertionError
         end ;;
    kvs <- render_decisions dna rest ;;
    Ok ((dp_name dp, v) :: kvs)
  end.

Definition total_name_length (decision_points : list DecisionPoint) : Z :=
  foldr (fun dp n => Z.of_nat (String.length (dp_name dp)) + n) 0
    decision_points.

(** The decisions of a trial as they stand in its directory name. *)
Definition render_items (include_names : bool) (kvs : list (string * string))
  : string :=
  join "|" (if include_names
            then (fun kv => kv.1 +:+ "=" +:+ kv.2) <$> kvs
            else snd <$> kvs).

(** The directory name in the spec's words, from the decision points, the
    threshold, the trial id and the DNA alone. *)
Definition trial_dirname (root_dir : string)
    (decision_points : list DecisionPoint) (threshold : Z) (trial_id : Z)
    (dna : DNA) : result string :=
  kvs <- render_decisions dna decision_points ;;
  Ok (os_path_join root_dir
        [pretty trial_id;
         render_items (total_name_length decision_points <? threshold) kvs]).

Definition spec_format (dp : DecisionPoint) : DecisionFormat :=
  match dp with
  | CustomDecisionPoint _ => EMPTY
  | Choices _ literal_values =>
    if literals_path_friendly literal_values then LITERAL else VALUE
  | Float _ => VALUE
  end.

(** A generator in use: the one [__init__] built, after any calls of
    [dirname]. *)
Inductive in_use (root_dir : string) (dps : list DecisionPoint)
    (threshold : Z) : TrialDirectoryNameGenerator -> Prop :=
| in_use_new : in_use root_dir dps threshold (new_generator root_dir dps threshold)
| in_use_dirname self trial_id dna :
    in_use root_dir dps threshold self ->
    in_use root_dir dps threshold (dirname self trial_id dna).2.

(** The digits of the mantissa of a rendering in scientific notation. *)
Fixpoint significant_digits (s : string) : nat :=
  match s with
  | EmptyString => 0
  | String c s' =>
    if Ascii.eqb c "e" then 0%nat
    else ((if (48 <=? nat_of_ascii c) && (nat_of_ascii c <=? 57)
           then 1 else 0) + significant_digits s')%nat
  end.

(** The decision points of the example: an integer choice [x], a quoted
    categorical choice [y], and a choice [z] among three candidates whose
    literals are not path friendly. *)
Definition example_points : list DecisionPoint :=
  [Choices "x" [LInt 1; LInt 2; LInt 3];
   Choices "y" [LStr "'abc'"; LStr "'def'"];
   Choices "z" [LStr "Foo(k=1)"; LStr "Foo(k=2)"; LStr "Foo(k=3)"]].

Definition example_dna : DNA :=
  {[ "x"%string := ChoiceDecision 0; "y"%string := ChoiceDecision 0;
     "z"%string := ChoiceDecision 1 ]}.

(** The metrics as the early-stopping function reports them. *)
Definition reported_metrics (sub_experiment_id : string) (metrics : Metrics)
  : Metrics :=
  if decide (sub_experiment_id = EmptyString) then metrics
  else suffix_keys sub_experiment_id metrics.

Definition reward_is_nan : exn := FloatingPointError "Reward is NaN.".

(** The training loop [program], started on the feedback [fb] and handed
    the early-stopping function [fn], comes to call [fn] with the given
    metrics, running mode, raw global step and last-checkpoint flag; the
    feedback is [fb'] when it does. *)
Inductive calls (fn : EarlyStoppingFn)
  : TrialProgram -> Feedback ->
    Metrics -> RunningMode -> Z -> bool -> Feedback -> Prop :=
| calls_now metrics running_mode global_step is_last_ckpt continue fb :
    calls fn (Report metrics running_mode global_step is_last_ckpt continue) fb
      metrics running_mode global_step is_last_ckpt fb
| calls_later metrics0 running_mode0 global_step0 is_last_ckpt0 continue fb
    stop fb1 metrics running_mode global_step is_last_ckpt fb' :
    fn metrics0 running_mode0 global_step0 is_last_ckpt0 fb = (Ok stop, fb1) ->
    calls fn (continue stop) fb1
      metrics running_mode global_step is_last_ckpt fb' ->
    calls fn
      (Report metrics0 running_mode0 global_step0 is_last_ckpt0 continue) fb
      metrics running_mode global_step is_last_ckpt fb'.

Section tuning_spec.

Variable process_index : Z.
Variable reward_fn : Metrics -> Z -> float.
Variable cross_step_metric_aggregator : list (Z * Metrics) -> Metrics.
Variable controller_should_stop_early : Feedback -> bool.

Local Abbreviation early_stopping_fn :=
  (should_stop_early process_index reward_fn cross_step_metric_aggregator
     controller_should_stop_early).

(** A call of the early-stopping function computes a reward: the process
    has the reporting role, is process 0, and eval or decode ran. *)
Definition reports (is_metric_reporting_role : bool)
    (running_mode : RunningMode) : bool :=
  is_metric_reporting_role && (process_index =? 0) &&
  (has_eval running_mode || has_decode running_mode).

(** The run of a training loop reaches a reporting step at which the reward
    function returns NaN. *)
Inductive nan_in_program (fn : EarlyStoppingFn) (sub_experiment_id : string)
    (role : bool) (start : Z) : TrialProgram -> Feedback -> Prop :=
| nan_now metrics running_mode global_step is_last_ckpt continue fb :
    reports role running_mode = true ->
    PrimFloat.is_nan
      (reward_fn (reported_metrics sub_experiment_id metrics)
         (start + global_step)) = true ->
    nan_in_program fn sub_experiment_id role start
      (Report metrics running_mode global_step is_last_ckpt continue) fb
| nan_later metrics running_mode global_step is_last_ckpt continue fb stop fb' :
    fn metrics running_mode global_step is_last_ckpt fb = (Ok stop, fb') ->
    nan_in_program fn sub_experiment_id role start (continue stop) fb' ->
    nan_in_program fn sub_experiment_id role start
      (Report metrics running_mode global_step is_last_ckpt continue) fb.

(** The same for a trial: in the sub-experiment at hand, or in a later one
    after the ones before it ran to their end. *)
Inductive nan_in_trial (role : bool) (total : nat)
  : nat -> list (string * TrialProgram) -> Feedback -> Prop :=
| nan_in_this i sub_experiment_id program rest fb :
    nan_in_program
      (early_stopping_fn sub_experiment_id role
         (Z.of_nat i =? Z.of_nat total - 1)
         (Z.of_nat i * SUB_EXPERIMENT_STEP_OFFSET))
      sub_experiment_id role (Z.of_nat i * SUB_EXPERIMENT_STEP_OFFSET)
      program fb ->
    nan_in_trial role total i ((sub_experiment_id, program) :: rest) fb
| nan_in_next i sub_experiment_id program rest fb fb' :
    trial_fn program
      (early_stopping_fn sub_experiment_id role
         (Z.of_nat i =? Z.of_nat total - 1)
         (Z.of_nat i * SUB_EXPERIMENT_STEP_OFFSET)) fb = (Ok tt, fb') ->
    nan_in_trial role total (S i) rest fb' ->
    nan_in_trial role total i ((sub_experiment_id, program) :: rest) fb.

End tuning_spec.

End tuning_lib_spec.

(** * Properties *)

(** ** Checkpoint cadence and deletion *)

Module checkpoint_managers_properties.

Import checkpoint_managers checkpoint_managers_spec.

Section cadence.

Variable reached_preemption_sync_point : Z -> bool.

Local Abbreviation cadence :=
  (checkpoint_managers_spec.cadence reached_preemption_sync_point).

Lemma should_save_cadence self s n :
  save_interval_steps (_options self) = Some n -> n <> 0 ->
  should_save reached_preemption_sync_point self s =
  Ok (reached_preemption_sync_point s ||
      match step <$> _last_checkpoint self with
      | None => true
      | Some l => (l <? s) && (s mod n =? 0)
      end).
Proof.
  intros Hn Hnz. unfold should_save.
  destruct (reached_preemption_sync_point s); [done|].
  destruct (_last_checkpoint self) as [info|]; simpl; [|done].
  destruct (step info <? s); [|done].
  rewrite Hn. simpl. destruct n; done.
Qed.

Lemma submit_cadence steps : forall self n,
  save_interval_steps (_options self) = Some n -> n <> 0 ->
  submit reached_preemption_sync_point self steps =
  Ok (cadence n (step <$> _last_checkpoint self) steps).
Proof.
  induction steps as [|s rest IH]; intros self n Hn Hnz; [done|].
  simpl. unfold save. rewrite (should_save_cadence self s n Hn Hnz). simpl.
  set (b := reached_preemption_sync_point s || _).
  rewrite (IH (if b then record_saved self s 0 else self) n);
    [|by destruct b|done].
  simpl. do 3 f_equal. by destruct b.
Qed.

Lemma cadence_steps n steps : forall last, (cadence n last steps).*1 = steps.
Proof. induction steps as [|s rest IH]; intros last; simpl; by rewrite ?IH. Qed.

(** Every answer follows from the step saved last before it. *)
Lemma cadence_answer n steps : forall last i s b,
  cadence n last steps !! i = Some (s, b) ->
  b = reached_preemption_sync_point s ||
      match
        (match last_saved (take i (cadence n last steps)) with
         | Some l => Some l
         | None => last
         end)
      with
      | None => true
      | Some l => (l <? s) && (s mod n =? 0)
      end.
Proof.
  induction steps as [|s0 rest IH]; intros last i s b Hi; [done|].
  destruct i as [|i]; simpl in Hi.
  - by inversion Hi; subst.
  - apply IH in Hi. rewrite Hi. f_equal. simpl.
    set (b0 := reached_preemption_sync_point s0 || _).
    destruct (last_saved _); [done|]. by destruct b0.
Qed.

Lemma last_saved_first s answers : is_Some (last_saved ((s, true) :: answers)).
Proof. simpl. destruct (last_saved answers); eauto. Qed.

End cadence.

(** *** The file system *)

Lemma is_prefix_app (p s : Path) : is_prefix p (p ++ s) = true.
Proof. induction p as [|x p IH]; [done|]. simpl. by rewrite decide_True. Qed.

Lemma is_prefix_refl (p : Path) : is_prefix p p = true.
Proof. induction p as [|x p IH]; [done|]. simpl. by rewrite decide_True. Qed.

Lemma strip_app (p s : Path) : strip p (p ++ s) = Some s.
Proof. induction p as [|x p IH]; [done|]. simpl. by rewrite decide_True. Qed.

Lemma is_prefix_fork (d : Path) x y l l' :
  x <> y -> is_prefix (d ++ x :: l) (d ++ y :: l') = false.
Proof.
  intros Hxy. induction d as [|z d IH]; simpl.
  - by rewrite decide_False.
  - by rewrite decide_True.
Qed.

Lemma is_prefix_longer (d : Path) x l : is_prefix (d ++ x :: l) d = false.
Proof. induction d as [|z d IH]; [done|]. simpl. by rewrite decide_True. Qed.

Lemma strip_longer (d : Path) x l : strip (d ++ x :: l) d = None.
Proof. induction d as [|z d IH]; [done|]. simpl. by rewrite decide_True. Qed.

Lemma strip_fork (d : Path) x y l l' :
  x <> y -> strip (d ++ x :: l) (d ++ y :: l') = None.
Proof.
  intros Hxy. induction d as [|z d IH]; simpl.
  - by rewrite decide_False.
  - by rewrite decide_True.
Qed.

Lemma child_fork (d : Path) x y l :
  x <> y -> is_prefix (child d x) (child d y ++ l) = false.
Proof.
  intros Hxy. unfold child. rewrite <- (assoc_L (++)).
  by apply is_prefix_fork.
Qed.

Lemma split_slash_plain (s : string) :
  has_slash s = false -> split_slash s = [s].
Proof.
  induction s as [|c s IH]; [done|]. simpl.
  intros [Hc Hs]%orb_false_iff. by rewrite Hc, (IH Hs).
Qed.

Lemma root_of_plain (s : string) : has_slash s = false -> root_of s = None.
Proof.
  destruct s as [|c s]; [done|]. cbn [has_slash].
  intros [Hc _]%orb_false_iff. unfold root_of. cbn [String.prefix].
  destruct (ascii_dec "/" c) as [<-|]; done.
Qed.

(** Joining a single segment appends it. *)
Lemma path_div_segment (p : Path) (s : string) :
  segment s -> path_div p s = child p s.
Proof.
  intros (Hne & Hdot & _ & Hplain). unfold path_div, parts_of.
  rewrite (root_of_plain s Hplain), (split_slash_plain s Hplain).
  cbn [List.filter].
  by rewrite (proj2 (String.eqb_neq _ _) Hne), (proj2 (String.eqb_neq _ _) Hdot).
Qed.

Lemma fs_exists_true fs p : fs p <> None -> fs_exists fs p = true.
Proof. unfold fs_exists. by destruct (fs p). Qed.

Lemma fs_exists_false fs p : fs p = None -> fs_exists fs p = false.
Proof. unfold fs_exists. by intros ->. Qed.

Section manager_properties.

Variable reached_preemption_sync_point : Z -> bool.
Variable checkpoints_checkpoint_name : Z -> string.

(** C1.  A manager is constructed over an empty checkpoint directory and a
    sequence of steps is submitted to it, a checkpoint being written
    whenever [should_save] says so.  No call raises; the first call answers
    true; every later call answers true exactly when preemption is
    signalled for its step or the step is strictly greater than the step
    saved last and is a multiple of the save interval; and a preemption
    signal forces true whatever the cadence. *)
Theorem should_save_sequence dir options checkpoint_type self steps :
  __init__ dir options [] checkpoint_type = Ok self ->
  exists answers n,
    submit reached_preemption_sync_point self steps = Ok answers /\
    answers.*1 = steps /\
    save_interval_steps (_options self) = Some n /\
    (forall s b, answers !! 0%nat = Some (s, b) ->
       _last_checkpoint self = None /\ b = true) /\
    (forall i s b, answers !! S i = Some (s, b) ->
       exists l, last_saved (take (S i) answers) = Some l /\
         (b = true <->
          reached_preemption_sync_point s = true \/ (l < s /\ s mod n = 0))) /\
    (forall i s b, answers !! i = Some (s, b) ->
       reached_preemption_sync_point s = true -> b = true).
Proof.
  intros Hinit.
  assert (Hn : save_interval_steps (_options self) =
               Some (or_1 (save_interval_steps options)) /\
               _last_checkpoint self = None).
  { unfold __init__ in Hinit. destruct checkpoint_type; by inversion Hinit. }
  destruct Hn as [Hn Hlast].
  assert (Hnz : or_1 (save_interval_steps options) <> 0).
  { unfold or_1. destruct (save_interval_steps options) as [[| |]|]; done. }
  set (n := or_1 (save_interval_steps options)) in *.
  exists (cadence reached_preemption_sync_point n None steps), n.
  split; [|split; [|split; [|split; [|split]]]].
  - by rewrite (submit_cadence _ steps self n Hn Hnz), Hlast.
  - apply cadence_steps.
  - done.
  - intros s b H0. split; [done|].
    apply cadence_answer in H0. simpl in H0. rewrite H0. apply orb_true_r.
  - intros i s b Hi.
    pose proof (cadence_answer _ n steps None (S i) s b Hi) as Hb.
    destruct steps as [|s0 rest]; [done|].
    assert (Hfirst : cadence reached_preemption_sync_point n None (s0 :: rest)
              = (s0, true) ::
                cadence reached_preemption_sync_point n (Some s0) rest).
    { simpl. by rewrite orb_true_r. }
    rewrite Hfirst in Hb |- *. rewrite firstn_cons in Hb |- *.
    destruct (last_saved_first s0
                (take i (cadence reached_preemption_sync_point n (Some s0) rest)))
      as [l Hl].
    rewrite Hl in Hb. exists l. split; [done|].
    rewrite Hb. rewrite orb_true_iff, andb_true_iff, Z.ltb_lt, Z.eqb_eq. done.
  - intros i s b Hi Hp. apply cadence_answer in Hi. by rewrite Hi, Hp.
Qed.

(** C9, as the claim states it, fails: a negative configured interval is
    kept as it is, so the divisor is not positive. *)
Lemma negative_interval_is_kept :
  exists self,
    __init__ ["ckpt"%string]
      {| save_interval_steps := Some (-2); max_to_keep := None;
         todelete_subdir := None |} [] CHECKPOINT_FLAX = Ok self /\
    save_interval_steps (_options self) = Some (-2) /\
    ~ (exists n, save_interval_steps (_options self) = Some n /\ 0 < n).
Proof.
  eexists. split; [reflexivity|]. split; [reflexivity|].
  simpl. intros (n & Hn & Hpos). inversion Hn. lia.
Qed.

(** C9, amended.  The constructor replaces an unset or zero
    [save_interval_steps] by 1 and keeps any other value; the divisor of
    [should_save]'s cadence test is therefore never zero, it is positive
    whenever the configured value is unset or not negative, and
    [should_save] never raises on a manager with the constructed options. *)
Theorem save_interval_normalized dir options existing checkpoint_type self :
  __init__ dir options existing checkpoint_type = Ok self ->
  exists n,
    save_interval_steps (_options self) = Some n /\
    n = or_1 (save_interval_steps options) /\
    n <> 0 /\
    (save_interval_steps options = None \/
     save_interval_steps options = Some 0 -> n = 1) /\
    (forall k, save_interval_steps options = Some k -> k <> 0 -> n = k) /\
    (match save_interval_steps options with
     | None => True
     | Some k => 0 <= k
     end -> 0 < n) /\
    (forall other s,
       _options other = _options self ->
       exists b, should_save reached_preemption_sync_point other s = Ok b).
Proof.
  intros Hinit. exists (or_1 (save_interval_steps options)).
  assert (Hn : save_interval_steps (_options self) =
               Some (or_1 (save_interval_steps options))).
  { unfold __init__ in Hinit. destruct checkpoint_type; by inversion Hinit. }
  assert (Hnz : or_1 (save_interval_steps options) <> 0).
  { unfold or_1. destruct (save_interval_steps options) as [[| |]|]; done. }
  split; [done|]. split; [done|]. split; [done|].
  split; [|split; [|split]].
  - by intros [-> | ->].
  - intros k -> Hk. by destruct k.
  - unfold or_1. destruct (save_interval_steps options) as [[| |]|]; lia.
  - intros other s Hopts. eexists.
    apply should_save_cadence; [by rewrite Hopts|done].
Qed.

End manager_properties.

Lemma should_save_sequence_witness :
  exists answers n,
    submit (fun s => s =? 7) {|
      _checkpoint_type := CHECKPOINT_FLAX; directory := ["ckpt"%string];
      _options := {| save_interval_steps := Some 5; max_to_keep := None;
                     todelete_subdir := None |};
      _checkpoints := []; _last_checkpoint := None |} [3; 4; 5; 7; 10; 10]
      = Ok answers /\
    answers.*1 = [3; 4; 5; 7; 10; 10] /\
    Some 5 = Some n /\
    (forall s b, answers !! 0%nat = Some (s, b) ->
       (None : option CheckpointInfo) = None /\ b = true) /\
    (forall i s b, answers !! S i = Some (s, b) ->
       exists l, last_saved (take (S i) answers) = Some l /\
         (b = true <-> (s =? 7) = true \/ (l < s /\ s mod n = 0))) /\
    (forall i s b, answers !! i = Some (s, b) -> (s =? 7) = true -> b = true).
Proof.
  apply (should_save_sequence (fun s => s =? 7) ["ckpt"%string]
           {| save_interval_steps := Some 5; max_to_keep := None;
              todelete_subdir := None |} CHECKPOINT_FLAX
           {| _checkpoint_type := CHECKPOINT_FLAX; directory := ["ckpt"%string];
              _options := {| save_interval_steps := Some 5; max_to_keep := None;
                             todelete_subdir := None |};
              _checkpoints := []; _last_checkpoint := None |}
           [3; 4; 5; 7; 10; 10]).
  reflexivity.
Defined.

Lemma save_interval_normalized_witness :
  exists n,
    Some 1 = Some n /\ n = 1 /\ n <> 0 /\
    (Some 0 = (None : option Z) \/ Some 0 = Some 0 -> n = 1) /\
    (forall k, Some 0 = Some k -> k <> 0 -> n = k) /\
    (0 <= 0 -> 0 < n) /\
    (forall other s,
       _options other =
       {| save_interval_steps := Some 1; max_to_keep := Some 3;
          todelete_subdir := None |} ->
       exists b, should_save (fun _ => false) other s = Ok b).
Proof.
  apply (save_interval_normalized (fun _ => false) ["ckpt"%string]
           {| save_interval_steps := Some 0; max_to_keep := Some 3;
              todelete_subdir := None |} [] CHECKPOINT_FLAX
           {| _checkpoint_type := CHECKPOINT_FLAX; directory := ["ckpt"%string];
              _options := {| save_interval_steps := Some 1; max_to_keep := Some 3;
                             todelete_subdir := None |};
              _checkpoints := []; _last_checkpoint := None |}).
  reflexivity.
Defined.

Section deletion.

Variable checkpoints_checkpoint_name : Z -> string.

(** The paths of a soft deletion and what process 0 runs, for a relative
    [todelete_subdir] and a checkpoint name of one segment. *)
Lemma delete_directory_soft self s fs sub first rest :
  todelete_subdir (_options self) = Some sub ->
  root_of sub = None -> parts_of sub = first :: rest ->
  let checkpoint_name := _checkpoint_name checkpoints_checkpoint_name self s in
  segment checkpoint_name ->
  let rename_dir := directory self ++ first :: rest in
  path_div (directory self) sub = rename_dir /\
  path_div (directory self) checkpoint_name
  = directory self ++ [checkpoint_name] /\
  path_div rename_dir checkpoint_name = rename_dir ++ [checkpoint_name] /\
  _delete_directory checkpoints_checkpoint_name 0 self s fs =
    (fs1 <- (if negb (fs_exists fs rename_dir)
             then mkdir_parents fs rename_dir else Ok fs) ;;
     rename fs1 (directory self ++ [checkpoint_name])
       (rename_dir ++ [checkpoint_name])).
Proof.
  intros Hsub Hroot Hparts checkpoint_name Hname rename_dir.
  assert (Hrd : path_div (directory self) sub = rename_dir).
  { unfold path_div. by rewrite Hroot, Hparts. }
  assert (Hsrc : forall p, path_div p checkpoint_name = p ++ [checkpoint_name]).
  { intros p. by rewrite path_div_segment. }
  split; [exact Hrd|]. split; [apply Hsrc|]. split; [apply Hsrc|].
  unfold _delete_directory. change (negb (0 =? 0)) with false. cbv iota.
  rewrite Hsub.
  assert (truthy_str (Some sub) = Some sub) as ->.
  { destruct sub; [|done]. by vm_compute in Hparts. }
  fold checkpoint_name. by rewrite Hrd, !Hsrc.
Qed.

(** The archive directory and the checkpoint directory part ways below the
    manager's directory. *)
Lemma soft_delete_apart (d : Path) (name first : string) (rest : list string) :
  first <> name ->
  let src := d ++ [name] in
  let rename_dir := d ++ first :: rest in
  let dst := rename_dir ++ [name] in
  (forall l, is_prefix src (rename_dir ++ l) = false) /\
  (forall below, is_prefix (src ++ below) rename_dir = false) /\
  is_prefix dst rename_dir = false /\
  strip dst rename_dir = None /\
  removelast dst = rename_dir.
Proof.
  intros Hne src rename_dir dst. subst src rename_dir dst.
  split; [|split; [|split; [|split]]].
  - intros l. rewrite <- (assoc_L (++)). apply is_prefix_fork. congruence.
  - intros below. rewrite <- (assoc_L (++)). apply is_prefix_fork. congruence.
  - apply is_prefix_longer.
  - apply strip_longer.
  - apply removelast_last.
Qed.

(** C7, as the claim states it, fails: when the archive already holds a
    directory of the checkpoint's name the rename is refused, the call
    raises, and the original path is not gone. *)
Lemma soft_delete_into_taken_archive_fails :
  let self :=
    {| _checkpoint_type := CHECKPOINT_FLAX; directory := ["root"%string];
       _options := {| save_interval_steps := Some 1; max_to_keep := None;
                      todelete_subdir := Some "archive"%string |};
       _checkpoints := []; _last_checkpoint := None |} in
  let fs : FS := fun q =>
    if decide (q = ["root"%string]) then Some Dir
    else if decide (q = ["root"; "checkpoint_100"]%string) then Some Dir
    else if decide (q = ["root"; "checkpoint_100"; "state"]%string)
         then Some (File "new")
    else if decide (q = ["root"; "archive"]%string) then Some Dir
    else if decide (q = ["root"; "archive"; "checkpoint_100"]%string)
         then Some Dir
    else None in
  _delete_directory (fun _ => "unused"%string) 0 self 100 fs
  = Raise AlreadyExistsError /\
  ~ (exists fs',
       _delete_directory (fun _ => "unused"%string) 0 self 100 fs = Ok fs' /\
       fs' ["root"; "checkpoint_100"]%string = None /\
       fs' ["root"; "archive"; "checkpoint_100"]%string <> None).
Proof.
  intros self fs.
  assert (Hrun : _delete_directory (fun _ => "unused"%string) 0 self 100 fs
                 = Raise AlreadyExistsError) by reflexivity.
  split; [exact Hrun|]. intros (fs' & Hok & _). rewrite Hrun in Hok. done.
Qed.


End deletion.


End checkpoint_managers_properties.

(** ** Experiment lookup *)

Module experiment_lib_properties.

Import experiment_lib.

Lemma before_last_dot_none s :
  tuning_lib.contains "." s = false -> before_last_dot s = None.
Proof.
  induction s as [|c s IH]; [done|]. simpl.
  intros [Hc Hs]%orb_false_iff. by rewrite (IH Hs), Hc.
Qed.

Lemma before_last_dot_app p s :
  tuning_lib.contains "." s = false ->
  before_last_dot (p +:+ "." +:+ s) = Some p.
Proof.
  intros Hs. induction p as [|c p IH].
  - change (before_last_dot (String "." s) = Some EmptyString). simpl.
    by rewrite (before_last_dot_none s Hs).
  - change (before_last_dot (String c (p +:+ "." +:+ s)) = Some (String c p)).
    simpl. by rewrite IH.
Qed.

Section lookup.

Variable BaseExperimentT : Type.
Variable import_module :
  string -> gmap string BaseExperimentT -> result (gmap string BaseExperimentT).

(** C8, amended.  [get_experiment] answers from the registry when the name
    is registered, without importing anything.  Otherwise it imports the
    module named by what precedes the last dot of the name and looks the
    name up again: a class registered by the import is returned; when the
    import raises [ModuleNotFoundError], or returns and the name is still
    missing, the call fails with the could-not-find error that names the
    requested experiment; any other exception of the import leaves
    [get_experiment] as it is. *)
Theorem get_experiment_two_tier registry experiment_name :
  let module_name := rsplit_dot_head experiment_name in
  let lookup := get_experiment BaseExperimentT import_module registry
                  experiment_name in
  (forall cls, registry !! experiment_name = Some cls ->
     lookup = Ok (cls, registry)) /\
  (registry !! experiment_name = None ->
   (forall registry' cls,
      import_module module_name registry = Ok registry' ->
      registry' !! experiment_name = Some cls ->
      lookup = Ok (cls, registry')) /\
   (forall registry',
      import_module module_name registry = Ok registry' ->
      registry' !! experiment_name = None ->
      lookup = Raise (could_not_find experiment_name)) /\
   (forall m,
      import_module module_name registry = Raise (ModuleNotFoundError m) ->
      lookup = Raise (could_not_find experiment_name)) /\
   (forall e,
      import_module module_name registry = Raise e ->
      (forall m, e <> ModuleNotFoundError m) ->
      lookup = Raise e)) /\
  (forall cls registry', lookup = Ok (cls, registry') ->
     registry' !! experiment_name = Some cls) /\
  could_not_find experiment_name =
    ValueError ("Could not find experiment `" +:+ experiment_name +:+ "`.") /\
  (forall package cls_name,
     experiment_name = package +:+ "." +:+ cls_name ->
     tuning_lib.contains "." cls_name = false ->
     module_name = package) /\
  (tuning_lib.contains "." experiment_name = false ->
   module_name = experiment_name).
Proof.
  intros module_name lookup. subst lookup. unfold get_experiment.
  fold module_name.
  split; [|split; [|split; [|split; [|split]]]].
  - by intros cls ->.
  - intros ->. split; [|split; [|split]].
    + by intros registry' cls -> ->.
    + by intros registry' -> ->.
    + by intros m ->.
    + intros e -> He. destruct e; try done. by destruct (He module_name0).
  - intros cls registry'.
    destruct (registry !! experiment_name) as [c|] eqn:Hreg.
    { intros [= <- <-]. done. }
    destruct (import_module module_name registry) as [r|e].
    + destruct (r !! experiment_name) as [c|] eqn:Hr; [|done].
      by intros [= <- <-].
    + by destruct e.
  - done.
  - intros package cls_name -> Hcls. subst module_name. unfold rsplit_dot_head.
    by rewrite before_last_dot_app.
  - intros Hnodot. subst module_name. unfold rsplit_dot_head.
    by rewrite before_last_dot_none.
Qed.

End lookup.

(** C8, as the claim states it, fails: an import that fails otherwise than
    by [ModuleNotFoundError] does not end in the could-not-find error. *)
Lemma import_error_propagates :
  let import_module : string -> gmap string nat -> result (gmap string nat) :=
    fun _ _ => Raise (OtherError "ImportError" "cannot import name") in
  get_experiment nat import_module ∅ "pkg.exps.Lm" =
    Raise (OtherError "ImportError" "cannot import name") /\
  get_experiment nat import_module ∅ "pkg.exps.Lm" <>
    Raise (could_not_find "pkg.exps.Lm").
Proof. split; [reflexivity|discriminate]. Qed.

Lemma get_experiment_two_tier_witness :
  let import_module : string -> gmap string nat -> result (gmap string nat) :=
    fun m r => if String.eqb m "pkg.exps" then Ok (<["pkg.exps.Lm"%string := 7%nat]> r)
               else Raise (ModuleNotFoundError m) in
  get_experiment nat import_module ∅ "pkg.exps.Lm"
    = Ok (7%nat, <["pkg.exps.Lm"%string := 7%nat]> ∅) /\
  get_experiment nat import_module ∅ "other.Lm"
    = Raise (could_not_find "other.Lm").
Proof.
  intros import_module. split.
  - destruct (get_experiment_two_tier nat import_module ∅ "pkg.exps.Lm")
      as (_ & Hmiss & _).
    destruct Hmiss as (Hfound & _); [reflexivity|].
    apply Hfound; reflexivity.
  - destruct (get_experiment_two_tier nat import_module ∅ "other.Lm")
      as (_ & Hmiss & _).
    destruct Hmiss as (_ & _ & Hnomodule & _); [reflexivity|].
    apply (Hnomodule "other"%string). reflexivity.
Defined.

End experiment_lib_properties.

(** ** The tuning loop, metric aggregation and directory names *)

Module tuning_lib_properties.

Import tuning_lib tuning_lib_spec.

(** C5.  [is_last_checkpoint] is true when [global_step] equals
    [num_train_steps].  When [global_step] is smaller, it is true exactly
    when the eval mode is active and the remaining steps are strictly fewer
    than the larger of the eval and save intervals, or the decode mode is
    active and they are strictly fewer than the larger of the decode and
    save intervals; otherwise it is false.  The same test decides a
    [global_step] beyond [num_train_steps]. *)
Theorem is_last_checkpoint_cases running_mode global_step num_train_steps
    eval_interval_steps decode_interval_steps save_interval_steps :
  let answer :=
    is_last_checkpoint running_mode global_step num_train_steps
      eval_interval_steps decode_interval_steps save_interval_steps in
  let remaining := num_train_steps - global_step in
  let near_end :=
    (has_eval running_mode = true /\
     remaining < Z.max eval_interval_steps save_interval_steps) \/
    (has_decode running_mode = true /\
     remaining < Z.max decode_interval_steps save_interval_steps) in
  (global_step = num_train_steps -> answer = true) /\
  (global_step < num_train_steps -> (answer = true <-> near_end)) /\
  (global_step < num_train_steps -> (answer = false <-> ~ near_end)) /\
  (global_step <> num_train_steps -> (answer = true <-> near_end)).
Proof.
  intros answer remaining near_end.
  assert (Hne : global_step <> num_train_steps -> (answer = true <-> near_end)).
  { intros Hg. subst answer near_end. unfold is_last_checkpoint.
    fold remaining.
    assert ((remaining =? 0) = false) as -> by (apply Z.eqb_neq; lia).
    simpl. rewrite orb_true_iff.
    destruct (has_eval running_mode), (has_decode running_mode);
      rewrite ?Z.ltb_lt; intuition congruence. }
  split; [|split; [|split]].
  - intros ->. subst answer. unfold is_last_checkpoint.
    by rewrite Z.sub_diag.
  - intros Hlt. apply Hne. lia.
  - intros Hlt. rewrite <- Hne by lia. by destruct answer.
  - done.
Qed.

Lemma is_last_checkpoint_cases_witness :
  let eval_only :=
    {| has_train := true; has_eval := true; has_decode := false |} in
  is_last_checkpoint eval_only 100 100 20 0 5 = true /\
  is_last_checkpoint eval_only 90 100 20 0 5 = true /\
  is_last_checkpoint eval_only 70 100 20 0 5 = false.
Proof.
  intros eval_only. split; [|split].
  - apply (proj1 (is_last_checkpoint_cases eval_only 100 100 20 0 5)).
    reflexivity.
  - apply (proj1 (proj2 (is_last_checkpoint_cases eval_only 90 100 20 0 5))).
    + lia.
    + left. split; [reflexivity|]. simpl. lia.
  - apply (proj1 (proj2 (proj2
             (is_last_checkpoint_cases eval_only 70 100 20 0 5)))).
    + lia.
    + simpl. intros [[_ H]|[H _]]; [lia|discriminate].
Defined.

(** *** Metric aggregation as a union of layers *)

#[local] Instance prefixed_key_inj p : Inj (=) (=) (prefixed_key p).
Proof.
  intros k1 k2 H. unfold prefixed_key in H.
  apply (inj (String.app p)) in H. by apply (inj (String.app "/")) in H.
Qed.

Lemma update_float_dict_prefixed (target source : Metrics) p :
  update_float_dict target source (Some p) = prefixed p source ∪ target.
Proof.
  unfold update_float_dict, prefixed.
  apply (map_fold_weak_ind
           (fun r m => r = kmap (prefixed_key p) m ∪ target)).
  - by rewrite kmap_empty, (left_id_L ∅ (∪)).
  - intros k v m r Hk ->. rewrite kmap_insert by apply _.
    by rewrite insert_union_l.
Qed.

Lemma merge_datasets_layer dataset_type category pairs : forall merged,
  merge_datasets dataset_type category pairs merged =
  datasets_layer dataset_type category pairs ∪ merged.
Proof.
  unfold merge_datasets.
  induction pairs as [|pm rest IH]; intros merged;
    cbn [fold_left datasets_layer].
  - by rewrite (left_id_L ∅ (∪)).
  - rewrite IH. destruct pm.2 as [m|].
    + by rewrite update_float_dict_prefixed, (assoc_L (∪)).
    + by rewrite (right_id_L ∅ (∪)).
Qed.

Lemma add_input_based_metrics_cases (metrics : Metrics) input_p metrics_list
    dataset_type category :
  _add_input_based_metrics metrics input_p metrics_list dataset_type category
  = if lengths_agree input_p metrics_list
    then Ok (family_layer dataset_type category input_p metrics_list ∪ metrics)
    else Raise AssertionError.
Proof.
  unfold _add_input_based_metrics, lengths_agree, family_layer.
  destruct input_p as [ps|], metrics_list as [ms|];
    rewrite ?(left_id_L ∅ (∪)); try done.
  case_decide.
  - rewrite bool_decide_eq_true_2 by done.
    rewrite merge_datasets_layer, (right_id_L ∅ (∪)). done.
  - by rewrite bool_decide_eq_false_2.
Qed.

Lemma add_metric_if_not_none_layer (metrics : Metrics) name value :
  _add_metric_if_not_none metrics name value = scalar_layer name value ∪ metrics.
Proof.
  destruct value; simpl.
  - apply insert_union_singleton_l.
  - by rewrite (left_id_L ∅ (∪)).
Qed.

(** [_aggregate_metrics] raises exactly when one of its assertions fails,
    and otherwise returns the union of its layers, an earlier layer of the
    list hiding a later one. *)
Lemma aggregate_metrics_union train_metrics eval_train_metrics eval_metrics
    decode_metrics num_params train_steps_per_sec :
  _aggregate_metrics train_metrics eval_train_metrics eval_metrics
    decode_metrics num_params train_steps_per_sec
  = if assertions_hold eval_metrics decode_metrics
    then Ok (⋃ layers train_metrics eval_train_metrics eval_metrics
               decode_metrics num_params train_steps_per_sec)
    else Raise AssertionError.
Proof.
  unfold _aggregate_metrics, assertions_hold, layers.
  set (m0 := match train_metrics with Some _ => _ | None => _ end).
  assert (Hm0 : m0 = optional_layer "train" train_metrics ∪ ∅).
  { subst m0. destruct train_metrics; simpl.
    - apply update_float_dict_prefixed.
    - by rewrite (left_id_L ∅ (∪)). }
  set (m1 := match eval_train_metrics with Some _ => _ | None => _ end).
  assert (Hm1 : m1 = optional_layer "eval_train/metrics" eval_train_metrics ∪ m0).
  { subst m1. destruct eval_train_metrics; simpl.
    - apply update_float_dict_prefixed.
    - by rewrite (left_id_L ∅ (∪)). }
  assert (Htail : ⋃ [optional_layer "eval_train/metrics" eval_train_metrics;
                      optional_layer "train" train_metrics] = m1).
  { by rewrite Hm1, Hm0. }
  clearbody m1. clear Hm1 Hm0 m0.
  destruct eval_metrics as [em|], decode_metrics as [dm|];
    cbn [bind eval_layers decode_layers steps_per_sec_layer app andb];
    repeat (rewrite add_input_based_metrics_cases;
            match goal with
            | |- context [lengths_agree ?a ?b] =>
              destruct (lengths_agree a b); cbn [bind andb]; try done
            end);
    rewrite !add_metric_if_not_none_layer;
    rewrite ?insert_union_singleton_l;
    cbn [union_list foldr]; cbn [union_list foldr] in Htail;
    rewrite <- Htail, ?(left_id_L ∅ (∪)); done.
Qed.

Lemma lookup_union_list_None (ls : list Metrics) key :
  Forall (fun l : Metrics => l !! key = None) ls -> (⋃ ls) !! key = None.
Proof.
  induction 1 as [|l ls Hl _ IH]; simpl; [done|].
  by apply lookup_union_None.
Qed.

(** The binding of a key is that of the first layer that binds it. *)
Lemma lookup_union_list_first (front : list Metrics) layer back key v :
  Forall (fun l : Metrics => l !! key = None) front ->
  layer !! key = Some v ->
  (⋃ (front ++ layer :: back)) !! key = Some v.
Proof.
  intros Hfront Hlayer. induction Hfront as [|l ls Hl _ IH]; simpl.
  - apply lookup_union_Some_raw. by left.
  - apply lookup_union_Some_raw. by right.
Qed.

Lemma prefixed_lookup_None p (source : Metrics) key :
  (forall k, key <> prefixed_key p k) -> prefixed p source !! key = None.
Proof.
  intros Hkey. unfold prefixed. apply lookup_kmap_None; [apply _|].
  intros k Hk. by destruct (Hkey k).
Qed.

Lemma optional_layer_lookup_None p source key :
  (forall k, key <> prefixed_key p k) -> optional_layer p source !! key = None.
Proof.
  intros Hkey. destruct source; simpl; [by apply prefixed_lookup_None|done].
Qed.

Lemma family_layer_lookup_None dataset_type category input_p metrics_list key :
  (forall p k,
     key <> prefixed_key (dataset_prefix p dataset_type category) k) ->
  family_layer dataset_type category input_p metrics_list !! key = None.
Proof.
  intros Hkey. unfold family_layer.
  destruct input_p as [ps|], metrics_list as [ms|]; try done.
  induction (zip ps ms) as [|pm rest IH]; simpl; [done|].
  apply lookup_union_None. split; [done|].
  destruct pm.2; simpl; [|done]. by apply prefixed_lookup_None.
Qed.

Ltac different_keys :=
  intros; unfold prefixed_key, dataset_prefix; cbv; discriminate.

(** No metric family writes one of them: a family's keys begin with
    [train/], [eval_train/], [eval_test_] or [decode_test_]. *)
Lemma families_avoid_scalar_names train_metrics eval_train_metrics
    eval_metrics decode_metrics key :
  scalar_name key ->
  Forall (fun l : Metrics => l !! key = None)
    (decode_layers decode_metrics ++ eval_layers eval_metrics ++
     [optional_layer "eval_train/metrics" eval_train_metrics;
      optional_layer "train" train_metrics]).
Proof.
  intros Hkey. rewrite !Forall_app. split; [|split].
  - destruct decode_metrics as [dm|]; simpl; [|done].
    repeat constructor; apply family_layer_lookup_None;
      destruct Hkey as [->|[->|[->| ->]]]; different_keys.
  - destruct eval_metrics as [em|]; simpl; [|done].
    repeat constructor; apply family_layer_lookup_None;
      destruct Hkey as [->|[->|[->| ->]]]; different_keys.
  - repeat constructor; apply optional_layer_lookup_None;
      destruct Hkey as [->|[->|[->| ->]]]; different_keys.
Qed.

Lemma merge_datasets_skips_none dataset_type category front p back merged :
  merge_datasets dataset_type category (front ++ (p, None) :: back) merged =
  merge_datasets dataset_type category (front ++ back) merged.
Proof. unfold merge_datasets. by rewrite !fold_left_app. Qed.

Lemma prefixed_lookup p (source : Metrics) k :
  prefixed p source !! (p +:+ "/" +:+ k) = source !! k.
Proof. unfold prefixed. apply (lookup_kmap (prefixed_key p)). Qed.

(** C3, as the claim states it, fails: with train metric a = 1, eval
    metric a = 2 and decode metric a = 3 the merged mapping has no key
    [a], so [a] is not 3; each family files its metric under its own
    prefix. *)
Lemma merged_mapping_has_no_key_a :
  exists m,
    _aggregate_metrics (Some (metric_a 1)) None (Some (eval_a 2))
      (Some (decode_a 3 3 3)) None None = Ok m /\
    m !! "a"%string <> Some (Some 3%float) /\
    m !! "a"%string = None.
Proof. eexists. split; [vm_compute; reflexivity|]. split; done. Qed.

(** C3, amended.  [_aggregate_metrics] returns when its assertions hold,
    and then the merged mapping is the union of its sources taken in the
    order train, eval-train, eval, decode, scalars, a source written later
    overwriting an earlier one on a common key.  A metric [k] of a source
    is filed under [<prefix>/k], the prefix being that of its family (and
    dataset): train metric a = 1, eval metric a = 2 and decode metric a = 3
    on dataset [d] come out as [train/a] = 1, [eval_test_d/metrics/a] = 2
    and [decode_test_d/a] = 3, with no key [a]; where keys do coincide, as
    for the three decode lists of one dataset, the last one wins.  A
    per-dataset entry whose metrics are [None] is skipped. *)
Theorem aggregate_metrics_last_source_wins train_metrics eval_train_metrics
    eval_metrics decode_metrics num_params train_steps_per_sec :
  let result :=
    _aggregate_metrics train_metrics eval_train_metrics eval_metrics
      decode_metrics num_params train_steps_per_sec in
  let sources :=
    layers train_metrics eval_train_metrics eval_metrics decode_metrics
      num_params train_steps_per_sec in
  (assertions_hold eval_metrics decode_metrics = true ->
   exists m, result = Ok m) /\
  (forall m, result = Ok m ->
     m = ⋃ sources /\
     forall front layer back key v,
       sources = front ++ layer :: back ->
       Forall (fun l : Metrics => l !! key = None) front ->
       layer !! key = Some v ->
       m !! key = Some v) /\
  (forall p source k, prefixed p source !! (p +:+ "/" +:+ k) = source !! k) /\
  (forall dataset_type category front p back merged,
     merge_datasets dataset_type category (front ++ (p, None) :: back) merged =
     merge_datasets dataset_type category (front ++ back) merged) /\
  (exists m,
     _aggregate_metrics (Some (metric_a 1)) None (Some (eval_a 2))
       (Some (decode_a 3 4 5)) None None = Ok m /\
     m !! "train/a"%string = Some (Some 1%float) /\
     m !! "eval_test_d/metrics/a"%string = Some (Some 2%float) /\
     m !! "decode_test_d/a"%string = Some (Some 5%float) /\
     m !! "a"%string = None).
Proof.
  intros result sources. subst result sources.
  rewrite aggregate_metrics_union.
  split; [|split; [|split; [|split]]].
  - intros ->. by eexists.
  - intros m Hm. destruct (assertions_hold _ _); [|done].
    assert (Hm' := f_equal (fun r => match r with Ok x => x | Raise _ => m end)
                     Hm).
    cbv beta iota in Hm'. subst m. split; [done|].
    intros front layer back key v -> Hfront Hlayer.
    by apply lookup_union_list_first.
  - apply prefixed_lookup.
  - apply merge_datasets_skips_none.
  - eexists. split; [vm_compute; reflexivity|]. by repeat split.
Qed.

Lemma aggregate_metrics_last_source_wins_witness :
  exists m,
    _aggregate_metrics None None None (Some (decode_a 3 4 5)) None None
    = Ok m /\
    m !! "decode_test_d/a"%string = Some (Some 5%float).
Proof.
  destruct (aggregate_metrics_last_source_wins None None None
              (Some (decode_a 3 4 5)) None None) as (Hruns & Hlast & _).
  destruct Hruns as [m Hm]; [reflexivity|].
  exists m. split; [exact Hm|].
  destruct (Hlast m Hm) as [_ Hwins].
  apply (Hwins
    [scalar_layer "num_params" None;
     steps_per_sec_layer "decode_steps_per_sec" (Some (decode_a 3 4 5))
       d_steps_per_sec;
     steps_per_sec_layer "eval_steps_per_sec" None steps_per_sec;
     scalar_layer "train_steps_per_sec" None]
    (family_layer (Some "decode_test"%string) None (Some dataset_d)
       (Some [Some (metric_a 5)]))
    [family_layer (Some "decode_test"%string) None (Some dataset_d)
       (Some [Some (metric_a 4)]);
     family_layer (Some "decode_test"%string) None (Some dataset_d)
       (Some [Some (metric_a 3)]);
     optional_layer "eval_train/metrics" None;
     optional_layer "train" None]).
  - reflexivity.
  - repeat constructor.
  - vm_compute. reflexivity.
Defined.

Lemma scalar_layer_lookup name value key :
  scalar_layer name value !! key =
  if decide (name = key) then Some <$> value else None.
Proof.
  destruct value; simpl.
  - case_decide; [subst; apply lookup_singleton_eq|by apply lookup_singleton_ne].
  - by case_decide.
Qed.

Lemma steps_per_sec_layer_lookup {A} name (bundle : option A) steps key :
  steps_per_sec_layer name bundle steps !! key =
  if decide (name = key) then steps <$> bundle else None.
Proof.
  destruct bundle; simpl.
  - case_decide; [subst; apply lookup_singleton_eq|by apply lookup_singleton_ne].
  - by case_decide.
Qed.

(** C10.  Whenever [_aggregate_metrics] returns a mapping, an eval bundle
    that was supplied binds ['eval_steps_per_sec'] to its [steps_per_sec]
    field as it is, [None] included, and a decode bundle binds
    ['decode_steps_per_sec'] likewise; without the bundle the key is
    absent.  ['train_steps_per_sec'] and ['num_params'] are bound exactly
    when their values are not [None]. *)
Theorem steps_per_sec_bound_even_when_none train_metrics eval_train_metrics
    eval_metrics decode_metrics num_params train_steps_per_sec m :
  _aggregate_metrics train_metrics eval_train_metrics eval_metrics
    decode_metrics num_params train_steps_per_sec = Ok m ->
  (forall em, eval_metrics = Some em ->
     m !! "eval_steps_per_sec"%string = Some (steps_per_sec em)) /\
  (forall dm, decode_metrics = Some dm ->
     m !! "decode_steps_per_sec"%string = Some (d_steps_per_sec dm)) /\
  (eval_metrics = None -> m !! "eval_steps_per_sec"%string = None) /\
  (decode_metrics = None -> m !! "decode_steps_per_sec"%string = None) /\
  m !! "train_steps_per_sec"%string = Some <$> train_steps_per_sec /\
  m !! "num_params"%string = Some <$> num_params.
Proof.
  rewrite aggregate_metrics_union.
  destruct (assertions_hold _ _); [|done]. intros [= <-].
  unfold layers. cbn [app union_list foldr].
  pose proof (fun key H =>
    lookup_union_list_None _ key
      (families_avoid_scalar_names train_metrics eval_train_metrics
         eval_metrics decode_metrics key H)) as Hfam.
  set (families := ⋃ (decode_layers decode_metrics ++ _)) in *.
  assert (Hrest : forall key, scalar_name key ->
            (families ∪ ∅) !! key = None).
  { intros key Hkey. rewrite (right_id_L ∅ (∪)). by apply Hfam. }
  assert (Hshape :
    ⋃ (decode_layers decode_metrics ++ eval_layers eval_metrics ++
        [optional_layer "eval_train/metrics" eval_train_metrics;
         optional_layer "train" train_metrics]) = families) by done.
  assert (Hgoal : forall key,
    (scalar_layer "num_params" num_params ∪
     (steps_per_sec_layer "decode_steps_per_sec" decode_metrics d_steps_per_sec ∪
      (steps_per_sec_layer "eval_steps_per_sec" eval_metrics steps_per_sec ∪
       (scalar_layer "train_steps_per_sec" train_steps_per_sec ∪
        families)))) !! key =
    scalar_layer "num_params" num_params !! key ∪
    (steps_per_sec_layer "decode_steps_per_sec" decode_metrics d_steps_per_sec
       !! key ∪
     (steps_per_sec_layer "eval_steps_per_sec" eval_metrics steps_per_sec
        !! key ∪
      (scalar_layer "train_steps_per_sec" train_steps_per_sec !! key ∪
       families !! key)))).
  { intros key. by rewrite !lookup_union. }
  rewrite !Hgoal, !scalar_layer_lookup, !steps_per_sec_layer_lookup.
  rewrite !Hfam by (unfold scalar_name; auto).
  repeat (rewrite decide_True by done) || (rewrite decide_False by done).
  split; [|split; [|split; [|split; [|split]]]].
  - by intros em ->.
  - by intros dm ->.
  - by intros ->.
  - by intros ->.
  - by destruct train_steps_per_sec.
  - by destruct num_params.
Qed.

Lemma steps_per_sec_bound_even_when_none_witness :
  exists m,
    _aggregate_metrics None None (Some (eval_a 2)) None None None = Ok m /\
    m !! "eval_steps_per_sec"%string = Some None /\
    m !! "decode_steps_per_sec"%string = None /\
    m !! "num_params"%string = None.
Proof.
  assert (Hm : exists m,
            _aggregate_metrics None None (Some (eval_a 2)) None None None
            = Ok m) by (eexists; vm_compute; reflexivity).
  destruct Hm as [m Hm]. exists m. split; [exact Hm|].
  destruct (steps_per_sec_bound_even_when_none None None (Some (eval_a 2))
              None None None m Hm) as (Heval & _ & _ & Hdecode & _ & Hparams).
  split; [exact (Heval (eval_a 2) eq_refl)|].
  split; [exact (Hdecode eq_refl)|exact Hparams].
Defined.

(** *** Directory names *)

Lemma append_nil_r (s : string) : s +:+ "" = s.
Proof.
  induction s as [|c s IH]; [done|].
  change (String c (s +:+ "") = String c s). by rewrite IH.
Qed.

Lemma all_chars_app f (a b : string) :
  all_chars f (a +:+ b) = all_chars f a && all_chars f b.
Proof.
  induction a as [|c a IH]; [done|].
  change (all_chars f (String c (a +:+ b)) =
          all_chars f (String c a) && all_chars f b).
  simpl. by rewrite IH, andb_assoc.
Qed.

Lemma pretty_N_go_chars (x : N) : forall s,
  all_chars is_int_char (pretty_N_go x s) = all_chars is_int_char s.
Proof.
  induction (N.lt_wf_0 x) as [x _ IH]; intros s.
  assert (x = 0 \/ 0 < x)%N as [->|Hx] by lia; [done|].
  rewrite pretty_N_go_step by done. rewrite IH by (by apply N.div_lt).
  simpl. assert (is_int_char (pretty_N_char (x `mod` 10)) = true) as ->; [|done].
  unfold pretty_N_char. by repeat case_match.
Qed.

Lemma pretty_N_go_nonempty (x : N) : forall s,
  (0 < x)%N -> pretty_N_go x s <> EmptyString.
Proof.
  induction (N.lt_wf_0 x) as [x _ IH]; intros s Hx.
  rewrite pretty_N_go_step by done.
  destruct (N.eq_0_gt_0_cases (x `div` 10)) as [->|Hd]; [done|].
  apply IH; [by apply N.div_lt|done].
Qed.

Lemma pretty_Z_chars (z : Z) :
  all_chars is_int_char (pretty z) = true /\ pretty z <> EmptyString.
Proof.
  assert (Hpos : forall p : positive,
            all_chars is_int_char (pretty p) = true /\
            pretty p <> EmptyString).
  { intros p. unfold pretty, pretty_positive, pretty, pretty_N.
    rewrite decide_False by done. split.
    - by rewrite pretty_N_go_chars.
    - apply pretty_N_go_nonempty. lia. }
  destruct z as [|p|p]; unfold pretty, pretty_Z.
  - done.
  - apply Hpos.
  - split; [|done].
    change (all_chars is_int_char (String "-" (pretty p)) = true).
    simpl. apply Hpos.
Qed.

Lemma startswith_char_false f (s : string) c :
  all_chars f s = true -> f c = false ->
  startswith s (String c EmptyString) = false.
Proof.
  intros Hs Hc. destruct s as [|a s]; [done|]. simpl in *.
  apply andb_true_iff in Hs as [Ha _].
  destruct (ascii_dec c a) as [->|]; [congruence|done].
Qed.

Lemma endswith_char_false f (s : string) c :
  all_chars f s = true -> f c = false ->
  endswith s (String c EmptyString) = false.
Proof.
  intros Hs Hc. induction s as [|a s IH]; [done|].
  simpl in Hs. apply andb_true_iff in Hs as [Ha Hs].
  cbn [endswith]. rewrite (IH Hs), orb_false_r.
  apply String.eqb_neq. intros [= -> _]. congruence.
Qed.

Lemma endswith_char_app (a b : string) c :
  b <> EmptyString ->
  endswith (a +:+ b) (String c EmptyString) = endswith b (String c EmptyString).
Proof.
  intros Hb. induction a as [|x a IH]; [done|].
  change (endswith (String x (a +:+ b)) (String c "") =
          endswith b (String c "")).
  cbn [endswith]. rewrite IH.
  assert (String.eqb (String x (a +:+ b)) (String c "") = false) as ->; [|done].
  apply String.eqb_neq. intros [= _ Hab]. destruct a; [done|discriminate].
Qed.

(** Where [posixpath.join] puts a trial's directory. *)
Lemma os_path_join_under_root (root items : string) (trial_id : Z) :
  root <> EmptyString -> endswith root "/" = false ->
  startswith items "/" = false ->
  os_path_join root [pretty trial_id; items] =
  (root +:+ "/" +:+ pretty trial_id) +:+ "/" +:+ items.
Proof.
  intros Hroot Hend Hitems. unfold os_path_join. cbn [fold_left].
  destruct (pretty_Z_chars trial_id) as [Hchars Hne].
  rewrite (startswith_char_false is_int_char _ "/" Hchars eq_refl).
  assert (String.eqb root "" = false) as -> by (by apply String.eqb_neq).
  rewrite Hend, Hitems. cbn [orb].
  assert (String.eqb (root +:+ "/" +:+ pretty trial_id) "" = false) as ->.
  { apply String.eqb_neq. by destruct root. }
  rewrite endswith_char_app by done.
  change ("/" +:+ pretty trial_id) with (String "/" (pretty trial_id)).
  cbn [endswith]. rewrite (endswith_char_false is_int_char _ "/" Hchars eq_refl).
  assert (String.eqb (String "/" (pretty trial_id)) "/" = false) as ->; [|done].
  apply String.eqb_neq. by intros [= ?].
Qed.

Lemma format_literal_pure cache literal :
  cache_ok cache ->
  (format_literal cache literal).1 = render_literal literal /\
  cache_ok (format_literal cache literal).2.
Proof.
  intros Hc. destruct literal as [n|x|s]; simpl; [done..|].
  destruct (cache !! s) as [v|] eqn:Hs; simpl.
  - split; [by apply Hc|done].
  - split; [done|]. intros s' v'. rewrite lookup_insert.
    case_decide; [by intros [= <-]; subst|apply Hc].
Qed.

Lemma all_path_friendly_pure vs : forall cache,
  cache_ok cache ->
  (all_path_friendly cache vs).1 = literals_path_friendly vs /\
  cache_ok (all_path_friendly cache vs).2.
Proof.
  induction vs as [|v vs IH]; intros cache Hc; [done|]. simpl.
  destruct (format_literal_pure cache v Hc) as [-> Hc'].
  destruct (path_friendly (render_literal v)); simpl; [by apply IH|done].
Qed.

Lemma decide_formats_pure dps : forall cache,
  cache_ok cache ->
  (decide_formats cache dps).1.1 = (fun dp => (dp, spec_format dp)) <$> dps /\
  (decide_formats cache dps).1.2 = total_name_length dps /\
  cache_ok (decide_formats cache dps).2.
Proof.
  induction dps as [|dp dps IH]; intros cache Hc; [done|]. simpl.
  set (fc := match dp with CustomDecisionPoint _ => _ | _ => _ end).
  assert (Hfc : fc.1 = spec_format dp /\ cache_ok fc.2).
  { subst fc. destruct dp as [n|n vs|n]; simpl; [done| |done].
    destruct (all_path_friendly_pure vs cache Hc) as [-> Hc']. done. }
  destruct Hfc as [Hf Hc']. specialize (IH fc.2 Hc').
  destruct (decide_formats fc.2 dps) as [[formats total] cache'].
  simpl in *. destruct IH as (-> & -> & Hc''). by rewrite Hf.
Qed.

Lemma decision_value_pure cache dna dp :
  cache_ok cache ->
  (decision_value cache dna dp (spec_format dp)).1 =
    match dna !! dp_name dp with
    | Some decision => render_decision dp decision
    | None => Raise AssertionError
    end /\
  cache_ok (decision_value cache dna dp (spec_format dp)).2.
Proof.
  intros Hc. unfold decision_value.
  destruct (dna !! dp_name dp) as [decision|]; [|done].
  destruct dp as [n|n vs|n]; simpl.
  - done.
  - destruct (literals_path_friendly vs); simpl;
      destruct decision as [i|x|s]; try done.
    destruct (if 0 <=? i then vs !! Z.to_nat i else None) as [literal|];
      [|done].
    destruct (format_literal_pure cache literal Hc) as [-> Hc']. done.
  - destruct decision as [i|x|s]; done.
Qed.

Lemma kv_pairs_pure dna dps : forall cache,
  cache_ok cache ->
  (kv_pairs cache dna ((fun dp => (dp, spec_format dp)) <$> dps)).1 =
    render_decisions dna dps /\
  cache_ok (kv_pairs cache dna ((fun dp => (dp, spec_format dp)) <$> dps)).2.
Proof.
  induction dps as [|dp dps IH]; intros cache Hc; [done|].
  cbn [fmap list_fmap kv_pairs render_decisions].
  destruct (decision_value_pure cache dna dp Hc) as [Hv Hc'].
  destruct (decision_value cache dna dp (spec_format dp)) as [[v|e] cache'];
    simpl in Hv, Hc'; rewrite <- Hv; [|done].
  destruct (IH cache' Hc') as [Hk Hc''].
  destruct (kv_pairs cache' dna _) as [[kvs|e] cache''];
    simpl in Hk, Hc''; rewrite <- Hk; done.
Qed.

Lemma dirname_pure root_dir dps threshold self trial_id dna :
  _root_dir self = root_dir ->
  _include_decision_names self = (total_name_length dps <? threshold) ->
  _decision_formats self = (fun dp => (dp, spec_format dp)) <$> dps ->
  cache_ok (_formatted_categorical_literals self) ->
  (dirname self trial_id dna).1 =
    trial_dirname root_dir dps threshold trial_id dna /\
  _root_dir (dirname self trial_id dna).2 = root_dir /\
  _include_decision_names (dirname self trial_id dna).2 =
    (total_name_length dps <? threshold) /\
  _decision_formats (dirname self trial_id dna).2 =
    (fun dp => (dp, spec_format dp)) <$> dps /\
  cache_ok (_formatted_categorical_literals (dirname self trial_id dna).2).
Proof.
  intros Hroot Hinc Hfmt Hc. unfold dirname, trial_dirname, render_items.
  rewrite Hfmt.
  destruct (kv_pairs_pure dna dps _ Hc) as [Hk Hc'].
  destruct (kv_pairs _ dna _) as [[kvs|e] cache'];
    simpl in Hk, Hc'; rewrite <- Hk; simpl; [|done].
  by rewrite Hinc, Hroot.
Qed.

Lemma in_use_invariant root_dir dps threshold self :
  in_use root_dir dps threshold self ->
  _root_dir self = root_dir /\
  _include_decision_names self = (total_name_length dps <? threshold) /\
  _decision_formats self = (fun dp => (dp, spec_format dp)) <$> dps /\
  cache_ok (_formatted_categorical_literals self).
Proof.
  induction 1 as [|self trial_id dna _ (Hroot & Hinc & Hfmt & Hc)].
  - unfold new_generator.
    destruct (decide_formats_pure dps ∅) as (Hf & Ht & Hc); [done|].
    destruct (decide_formats ∅ dps) as [[formats total] cache].
    simpl in *. by subst.
  - by destruct (dirname_pure root_dir dps threshold self trial_id dna
                   Hroot Hinc Hfmt Hc) as (_ & ? & ? & ? & ?).
Qed.

Lemma format_categorical_quoted (s : string) :
  _format_categorical ("'" +:+ s +:+ "'") = s.
Proof.
  unfold _format_categorical.
  change ("'" +:+ s +:+ "'") with (String "'" (s +:+ "'")).
  assert (startswith (String "'" (s +:+ "'")) "'" = true) as ->.
  { unfold startswith. simpl. by destruct (s +:+ "'"). }
  assert (Hend : forall t : string, endswith (t +:+ "'") "'" = true).
  { induction t as [|c t IH]; [done|].
    change (endswith (String c (t +:+ "'")) "'" = true).
    cbn [endswith]. rewrite IH. apply orb_true_r. }
  assert (endswith (String "'" (s +:+ "'")) "'" = true) as ->
    by apply (Hend (String "'" s)).
  cbn [andb]. unfold slice_1_m1. cbn [tail].
  induction s as [|c s IH]; [done|].
  change (drop_last (String c (s +:+ "'")) = String c s).
  cbn [drop_last]. rewrite IH. by destruct s.
Qed.

(** C6, as the claim states it, fails: a float is rendered with one digit
    before and three after the point, which is four significant digits and
    not three; and a directory name need not lie under [<root>/<trial_id>/],
    for a decision name that begins with a slash makes [os.path.join] drop
    what precedes it. *)
Lemma float_rendered_with_four_significant_digits :
  (dirname (new_generator "root" [Float "lr"] 64) 7
     {[ "lr"%string := FloatDecision 0.5 ]}).1 = Ok "root/7/lr=5.000e-01"%string /\
  (format_literal ∅ (LFloat 0.5)).1 = "5.000e-01"%string /\
  significant_digits (format_literal ∅ (LFloat 0.5)).1 = 4%nat /\
  significant_digits (format_literal ∅ (LFloat 0.5)).1 <> 3%nat /\
  (dirname (new_generator "root" [Choices "/x" [LInt 1; LInt 2]] 64) 7
     {[ "/x"%string := ChoiceDecision 0 ]}).1 = Ok "/x=1"%string.
Proof. vm_compute. by repeat split. Qed.

(** C6, amended.  The directory name is a function of the decision points,
    the threshold, the trial id and the DNA: whatever calls went before, a
    generator answers [trial_dirname], so identical inputs give the
    identical path.  The path is [os.path.join] of the root, the trial id
    and the decisions joined by [|], which is [<root>/<trial_id>/<items>]
    when the root is not empty and does not end with a slash and the items
    do not begin with one.  Each decision renders as [name=value] when the
    names' total length is below the threshold, else as its value.  Values:
    an integer as it is; a float with one digit before and three after the
    point (four significant digits); a categorical literal without its
    quotes or as the bare class name; a custom decision point as
    [(CUSTOM)]; a choice with a candidate that does not render path
    friendly as its index in parentheses.  The example gives
    [root/7/x=1|y=abc|z=(1)]. *)
Theorem dirname_deterministic root_dir dps threshold trial_id dna :
  let include_names := total_name_length dps <? threshold in
  (forall self, in_use root_dir dps threshold self ->
     (dirname self trial_id dna).1 =
     trial_dirname root_dir dps threshold trial_id dna) /\
  (forall self self',
     in_use root_dir dps threshold self ->
     in_use root_dir dps threshold self' ->
     (dirname self trial_id dna).1 = (dirname self' trial_id dna).1) /\
  (forall path,
     trial_dirname root_dir dps threshold trial_id dna = Ok path ->
     exists kvs,
       render_decisions dna dps = Ok kvs /\
       kvs.*1 = dp_name <$> dps /\
       path = os_path_join root_dir
                [pretty trial_id; render_items include_names kvs] /\
       (root_dir <> EmptyString -> endswith root_dir "/" = false ->
        startswith (render_items include_names kvs) "/" = false ->
        path = (root_dir +:+ "/" +:+ pretty trial_id) +:+ "/" +:+
               render_items include_names kvs)) /\
  (forall kvs,
     render_items true kvs =
       join "|" ((fun kv => kv.1 +:+ "=" +:+ kv.2) <$> kvs) /\
     render_items false kvs = join "|" (kvs.*2)) /\
  (forall n decision,
     render_decision (CustomDecisionPoint n) decision = Ok "(CUSTOM)"%string) /\
  (forall n x, render_decision (Float n) (FloatDecision x) = Ok (format_3e x)) /\
  (forall n literal_values i,
     literals_path_friendly literal_values = false ->
     render_decision (Choices n literal_values) (ChoiceDecision i) =
     Ok ("(" +:+ pretty i +:+ ")")) /\
  (forall n literal_values (i : nat) literal,
     literals_path_friendly literal_values = true ->
     literal_values !! i = Some literal ->
     render_decision (Choices n literal_values) (ChoiceDecision (Z.of_nat i)) =
     Ok (render_literal literal)) /\
  (forall n, render_literal (LInt n) = pretty n) /\
  (forall s, render_literal (LStr ("'" +:+ s +:+ "'")) = s) /\
  render_literal (LStr "<class 'paxml.tasks.lm.Model'>") = "Model"%string /\
  render_literal (LFloat 0.5) = "5.000e-01"%string /\
  render_literal (LFloat 1234.5) = "1.234e+03"%string /\
  (dirname (new_generator "root" example_points 64) 7 example_dna).1 =
    Ok "root/7/x=1|y=abc|z=(1)"%string.
Proof.
  intros include_names.
  assert (Hpure : forall self, in_use root_dir dps threshold self ->
            (dirname self trial_id dna).1 =
            trial_dirname root_dir dps threshold trial_id dna).
  { intros self Huse.
    destruct (in_use_invariant _ _ _ _ Huse) as (Hroot & Hinc & Hfmt & Hc).
    by destruct (dirname_pure root_dir dps threshold self trial_id dna
                   Hroot Hinc Hfmt Hc) as [? _]. }
  split; [exact Hpure|]. split.
  { intros self self' H1 H2. by rewrite !Hpure. }
  split.
  { intros path. unfold trial_dirname. fold include_names.
    destruct (render_decisions dna dps) as [kvs|e] eqn:Hk; [|done].
    intros [= <-]. exists kvs. split; [done|]. split.
    - clear -Hk. revert kvs Hk.
      induction dps as [|dp rest IH]; intros kvs Hk.
      + by injection Hk as <-.
      + cbn [render_decisions] in Hk.
        destruct (match dna !! dp_name dp with
                  | Some decision => render_decision dp decision
                  | None => Raise AssertionError
                  end) as [v|e]; [|done].
        cbn [bind] in Hk.
        destruct (render_decisions dna rest) as [kvs'|e]; [|done].
        injection Hk as <-. simpl. f_equal. by apply IH.
    - split; [done|]. intros Hroot Hend Hitems.
      by apply os_path_join_under_root. }
  split; [done|]. split; [done|]. split; [done|]. split.
  { intros n vs i Hvs. simpl. by rewrite Hvs. }
  split.
  { intros n vs i literal Hvs Hi. simpl. rewrite Hvs.
    assert ((0 <=? Z.of_nat i) = true) as -> by (apply Z.leb_le; lia).
    by rewrite Nat2Z.id, Hi. }
  split; [done|]. split; [apply format_categorical_quoted|].
  by vm_compute.
Qed.

Lemma dirname_deterministic_witness :
  (dirname (dirname (new_generator "root" example_points 64) 3 example_dna).2
     7 example_dna).1 = Ok "root/7/x=1|y=abc|z=(1)"%string /\
  exists kvs,
    render_decisions example_dna example_points = Ok kvs /\
    (Ok "root/7/x=1|y=abc|z=(1)"%string : result string) =
    Ok (("root" +:+ "/" +:+ pretty 7) +:+ "/" +:+ render_items true kvs).
Proof.
  destruct (dirname_deterministic "root" example_points 64 7 example_dna)
    as (Hpure & _ & Hpath & _).
  split.
  - rewrite (Hpure _ (in_use_dirname _ _ _ _ 3 example_dna
                        (in_use_new "root" example_points 64))).
    vm_compute. reflexivity.
  - destruct (Hpath "root/7/x=1|y=abc|z=(1)"%string) as (kvs & Hk & _ & _ & Hunder);
      [vm_compute; reflexivity|].
    exists kvs. split; [exact Hk|]. f_equal. apply Hunder.
    + discriminate.
    + reflexivity.
    + revert Hk. vm_compute. intros [= <-]. reflexivity.
Defined.

Section tuning_properties.

Variable process_index : Z.
Variable reward_fn : Metrics -> Z -> float.
Variable cross_step_metric_aggregator : list (Z * Metrics) -> Metrics.
Variable controller_should_stop_early : Feedback -> bool.

Local Abbreviation early_stopping_fn :=
  (should_stop_early process_index reward_fn cross_step_metric_aggregator
     controller_should_stop_early).
Local Abbreviation run_subs :=
  (run_sub_experiments process_index reward_fn cross_step_metric_aggregator
     controller_should_stop_early).
Local Abbreviation run_one :=
  (run_trial process_index reward_fn cross_step_metric_aggregator
     controller_should_stop_early).
Local Abbreviation loop :=
  (tune_loop process_index reward_fn cross_step_metric_aggregator
     controller_should_stop_early).
Local Abbreviation reports := (tuning_lib_spec.reports process_index).
Local Abbreviation nan_in_program :=
  (tuning_lib_spec.nan_in_program process_index reward_fn).
Local Abbreviation nan_in_trial :=
  (tuning_lib_spec.nan_in_trial process_index reward_fn
     cross_step_metric_aggregator controller_should_stop_early).

Lemma early_stopping_fn_nan sub_experiment_id role is_last_experiment start
    metrics running_mode global_step is_last_ckpt fb :
  reports role running_mode = true ->
  PrimFloat.is_nan
    (reward_fn (reported_metrics sub_experiment_id metrics)
       (start + global_step)) = true ->
  early_stopping_fn sub_experiment_id role is_last_experiment start
    metrics running_mode global_step is_last_ckpt fb
  = (Raise (FloatingPointError "Reward is NaN."), fb).
Proof.
  unfold tuning_lib_spec.reports, reported_metrics, should_stop_early.
  intros [[-> ->]%andb_true_iff ->]%andb_true_iff Hnan.
  unfold when, mbind. simpl. by rewrite Hnan.
Qed.

(** What one call of the early-stopping function appends when the reward is
    a number: the measurement of the step, then the final measurement when
    the trial ends here. *)
Lemma early_stopping_fn_reports sub_experiment_id role is_last_experiment
    start metrics running_mode global_step is_last_ckpt fb :
  reports role running_mode = true ->
  let tuning_step := start + global_step in
  let reported := reported_metrics sub_experiment_id metrics in
  PrimFloat.is_nan (reward_fn reported tuning_step) = false ->
  exists stop fb',
    early_stopping_fn sub_experiment_id role is_last_experiment start
      metrics running_mode global_step is_last_ckpt fb = (Ok stop, fb') /\
    exists final,
      measurements fb' =
        measurements fb ++
        {| m_reward := reward_fn reported tuning_step; m_step := tuning_step;
           m_metrics := reported; m_checkpoint_path := None |} :: final /\
      (final = [] \/
       exists m, final = [m] /\ m_step m = tuning_step + 1 /\
         is_last_ckpt = true /\ is_last_experiment = true).
Proof.
  intros Hrep tuning_step reported Hnan. revert Hrep.
  unfold tuning_lib_spec.reports, should_stop_early.
  intros [[-> ->]%andb_true_iff ->]%andb_true_iff.
  unfold when, mbind. simpl. fold (reported_metrics sub_experiment_id metrics).
  fold reported tuning_step. rewrite Hnan. unfold act. simpl.
  destruct is_last_ckpt, is_last_experiment; simpl;
    do 2 eexists; (split; [reflexivity|]); simpl.
  - eexists. rewrite <- (assoc_L (++)). split; [reflexivity|].
    right. eexists. by repeat split.
  - exists []. by split; [|left].
  - exists []. by split; [|left].
  - exists []. by split; [|left].
Qed.

(** Nothing in a trial removes a measurement: each piece of it leaves the
    measurements reported so far in front. *)
Lemma early_stopping_fn_extends sub_experiment_id role is_last_experiment
    start metrics running_mode global_step is_last_ckpt fb :
  measurements fb `prefix_of`
  measurements
    (early_stopping_fn sub_experiment_id role is_last_experiment start
       metrics running_mode global_step is_last_ckpt fb).2.
Proof.
  unfold should_stop_early, when, mbind, act, ret, raise,
    _add_final_measurement.
  destruct role; simpl; [|done].
  destruct ((process_index =? 0) &&
            (has_eval running_mode || has_decode running_mode)); simpl;
    [destruct (PrimFloat.is_nan _); simpl; [done|]|];
    destruct is_last_ckpt; simpl;
    try destruct (is_last_experiment && (process_index =? 0)); simpl;
    repeat apply prefix_app_r; done.
Qed.

Lemma trial_fn_extends (fn : EarlyStoppingFn) program :
  (forall metrics running_mode global_step is_last_ckpt fb,
     measurements fb `prefix_of`
     measurements (fn metrics running_mode global_step is_last_ckpt fb).2) ->
  forall fb, measurements fb `prefix_of` measurements (trial_fn program fn fb).2.
Proof.
  intros Hfn.
  induction program as [|e|metrics running_mode global_step is_last_ckpt
                          continue IH]; intros fb; [done..|].
  simpl. unfold mbind.
  specialize (Hfn metrics running_mode global_step is_last_ckpt fb).
  destruct (fn metrics running_mode global_step is_last_ckpt fb)
    as [[stop|e] fb']; simpl in *; [|done].
  etrans; [exact Hfn|apply IH].
Qed.

Lemma run_subs_extends role total subs : forall i fb,
  measurements fb `prefix_of` measurements (run_subs role total i subs fb).2.
Proof.
  induction subs as [|[sub_experiment_id program] rest IH]; intros i fb;
    [done|].
  simpl. unfold mbind, _get_early_stopping_fn.
  pose proof (trial_fn_extends
    (early_stopping_fn sub_experiment_id role
       (Z.of_nat i =? Z.of_nat total - 1)
       (Z.of_nat i * SUB_EXPERIMENT_STEP_OFFSET)) program
    (early_stopping_fn_extends _ _ _ _) fb) as Hext.
  destruct (trial_fn program _ fb) as [[[]|e] fb1]; simpl in Hext; [|done].
  etrans; [exact Hext|apply IH].
Qed.

(** A trial that is marked skipped keeps its measurements. *)
Lemma skip_on_exceptions_measurements classes (body : M unit) fb :
  measurements (skip_on_exceptions classes body fb).2 =
  measurements (body fb).2.
Proof.
  unfold skip_on_exceptions, try_except.
  destruct (body fb) as [[[]|e] fb']; [done|].
  by destruct (existsb (fun c => c e) classes).
Qed.

(** What [tune] does around the sub-experiments keeps their measurements. *)
Lemma run_trial_extends role errors_to_skip subs fb :
  measurements (run_subs role (length subs) 0 subs fb).2 `prefix_of`
  measurements (run_one role errors_to_skip subs fb).2.
Proof.
  unfold run_trial. rewrite skip_on_exceptions_measurements.
  unfold try_except.
  destruct (run_subs role (length subs) 0 subs fb) as [[[]|e] fb1]; [done|].
  destruct e; try done.
  unfold on_early_stopping, when, mbind, act, ret.
  destruct (process_index =? 0); [|done].
  destruct (es_skip e); simpl; [done|]. by apply prefix_app_r.
Qed.

(** The sub-experiments of a trial run one after the other, each counted
    from where the ones before it left off. *)
Lemma run_subs_app role total before : forall i after fb,
  run_subs role total i (before ++ after) fb =
  match run_subs role total i before fb with
  | (Ok _, fb1) => run_subs role total (i + length before) after fb1
  | (Raise e, fb1) => (Raise e, fb1)
  end.
Proof.
  induction before as [|[sub_experiment_id program] before IH];
    intros i after fb.
  { simpl. by rewrite Nat.add_0_r. }
  simpl. unfold mbind.
  destruct (trial_fn program _ fb) as [[[]|e] fb1]; [|done].
  rewrite IH. by rewrite Nat.add_succ_comm.
Qed.

(** A training loop that comes to a call of its early-stopping function
    goes on from this call. *)
Lemma calls_trial_fn (fn : EarlyStoppingFn) program fb metrics running_mode
    global_step is_last_ckpt fb' :
  calls fn program fb metrics running_mode global_step is_last_ckpt fb' ->
  exists continue,
    trial_fn program fn fb =
    mbind (fn metrics running_mode global_step is_last_ckpt)
      (fun stop => trial_fn (continue stop) fn) fb'.
Proof.
  induction 1 as [metrics running_mode global_step is_last_ckpt continue fb
                 |metrics0 running_mode0 global_step0 is_last_ckpt0 continue fb
                    stop fb1 metrics running_mode global_step is_last_ckpt fb'
                    Hstep Hrest IH].
  - by exists continue.
  - destruct IH as (continue' & Hrun). exists continue'.
    simpl. unfold mbind at 1. by rewrite Hstep.
Qed.

(** C4.  [tune] runs the sub-experiments of a trial in order and hands the
    one at zero-based position [i] an early-stopping function whose step
    offset is [i] times 1,000,000,000: when the sub-experiments before it
    have run to their end and its training loop reports the raw global step
    [s], the measurement the search controller holds for this report at the
    end of the trial carries the tuning step [i * 1,000,000,000 + s]; for
    position 2 and raw step 5 this is 2,000,000,005. *)
Theorem tuning_step_offset role errors_to_skip before sub_experiment_id
    program after fb fb1 metrics running_mode (s : Z) is_last_ckpt fb2 :
  let subs := before ++ (sub_experiment_id, program) :: after in
  let i := Z.of_nat (length before) in
  let fn := early_stopping_fn sub_experiment_id role
              (i =? Z.of_nat (length subs) - 1) (i * 1000000000) in
  let tuning_step := i * 1000000000 + s in
  let reported := reported_metrics sub_experiment_id metrics in
  run_subs role (length subs) 0 before fb = (Ok tt, fb1) ->
  run_subs role (length subs) 0 subs fb =
    (trial_fn program fn >>
     run_subs role (length subs) (S (length before)) after) fb1 /\
  (calls fn program fb1 metrics running_mode s is_last_ckpt fb2 ->
   reports role running_mode = true ->
   PrimFloat.is_nan (reward_fn reported tuning_step) = false ->
   exists m,
     measurements (run_one role errors_to_skip subs fb).2
       !! length (measurements fb2) = Some m /\
     m_step m = tuning_step /\ m_metrics m = reported /\
     m_reward m = reward_fn reported tuning_step /\
     (length before = 2%nat -> s = 5 -> m_step m = 2000000005)).
Proof.
  intros subs i fn tuning_step reported Hbefore.
  assert (Hsubs : run_subs role (length subs) 0 subs fb =
            (trial_fn program fn >>
             run_subs role (length subs) (S (length before)) after) fb1).
  { unfold subs at 2. by rewrite run_subs_app, Hbefore. }
  split; [exact Hsubs|]. intros Hcalls Hrep Hnan.
  destruct (calls_trial_fn _ _ _ _ _ _ _ _ Hcalls) as (continue & Hloop).
  destruct (early_stopping_fn_reports sub_experiment_id role
              (i =? Z.of_nat (length subs) - 1) (i * 1000000000) metrics
              running_mode s is_last_ckpt fb2 Hrep Hnan)
    as (stop & fb3 & Hcall & final & Hms & _).
  fold fn in Hcall.
  set (m := {| m_reward := reward_fn reported tuning_step;
               m_step := tuning_step; m_metrics := reported;
               m_checkpoint_path := None |}) in *.
  assert (Hthere : measurements fb3 !! length (measurements fb2) = Some m).
  { rewrite Hms. rewrite lookup_app_r by lia. by rewrite Nat.sub_diag. }
  exists m. split; [|split; [done|split; [done|split; [done|]]]].
  - eapply prefix_lookup_Some; [exact Hthere|].
    etrans; [|apply run_trial_extends]. fold subs. rewrite Hsubs.
    unfold mbind at 1. rewrite Hloop. unfold mbind at 1. rewrite Hcall.
    pose proof (trial_fn_extends fn (continue stop)
                  (early_stopping_fn_extends _ _ _ _) fb3) as Hext.
    destruct (trial_fn (continue stop) fn fb3) as [[[]|e] fb4];
      simpl in Hext; [|done].
    etrans; [exact Hext|apply run_subs_extends].
  - intros Hi ->. subst tuning_step i. simpl. rewrite Hi. reflexivity.
Qed.

(** The feedback object stays that of the same trial. *)
Lemma early_stopping_fn_id sub_experiment_id role is_last_experiment start
    metrics running_mode global_step is_last_ckpt fb :
  id (early_stopping_fn sub_experiment_id role is_last_experiment start
        metrics running_mode global_step is_last_ckpt fb).2 = id fb.
Proof.
  unfold should_stop_early, when, mbind, act, ret, raise,
    _add_final_measurement.
  destruct role; simpl; [|done].
  destruct ((process_index =? 0) &&
            (has_eval running_mode || has_decode running_mode)); simpl;
    [destruct (PrimFloat.is_nan _); simpl; [done|]|];
    destruct is_last_ckpt; simpl; try done;
    by destruct (is_last_experiment && (process_index =? 0)).
Qed.

Lemma trial_fn_id (fn : EarlyStoppingFn) program :
  (forall metrics running_mode global_step is_last_ckpt fb,
     id (fn metrics running_mode global_step is_last_ckpt fb).2 = id fb) ->
  forall fb, id (trial_fn program fn fb).2 = id fb.
Proof.
  intros Hfn.
  induction program as [|e|metrics running_mode global_step is_last_ckpt
                          continue IH]; intros fb; [done..|].
  simpl. unfold mbind.
  specialize (Hfn metrics running_mode global_step is_last_ckpt fb).
  destruct (fn metrics running_mode global_step is_last_ckpt fb) as [[stop|e] fb'];
    simpl in *; [|done].
  by rewrite IH.
Qed.

Lemma run_subs_id role total subs : forall i fb r fb',
  run_subs role total i subs fb = (r, fb') -> id fb' = id fb.
Proof.
  induction subs as [|[sub_experiment_id program] rest IH];
    intros i fb r fb' Hrun.
  - by inversion Hrun.
  - simpl in Hrun. unfold mbind, _get_early_stopping_fn in Hrun.
    pose proof (trial_fn_id
      (early_stopping_fn sub_experiment_id role
         (Z.of_nat i =? Z.of_nat total - 1)
         (Z.of_nat i * SUB_EXPERIMENT_STEP_OFFSET)) program
      (early_stopping_fn_id _ _ _ _) fb) as Hid.
    destruct (trial_fn program _ fb) as [[[]|e] fb1]; simpl in Hid.
    + apply IH in Hrun. congruence.
    + inversion Hrun; subst. done.
Qed.

Lemma nan_in_program_raises sub_experiment_id role is_last_experiment start
    program fb :
  nan_in_program
    (early_stopping_fn sub_experiment_id role is_last_experiment start)
    sub_experiment_id role start program fb ->
  exists fb',
    trial_fn program
      (early_stopping_fn sub_experiment_id role is_last_experiment start) fb
    = (Raise reward_is_nan, fb').
Proof.
  induction 1 as [metrics running_mode global_step is_last_ckpt continue fb
                    Hrep Hnan
                 |metrics running_mode global_step is_last_ckpt continue fb
                    stop fb' Hstep Hrest IH].
  - exists fb. simpl. unfold mbind.
    by rewrite (early_stopping_fn_nan _ _ _ _ _ _ _ _ _ Hrep Hnan).
  - destruct IH as (fb'' & Hrun). exists fb''. simpl. unfold mbind.
    by rewrite Hstep.
Qed.

Lemma nan_in_trial_raises role total i subs fb :
  nan_in_trial role total i subs fb ->
  exists fb', run_subs role total i subs fb = (Raise reward_is_nan, fb').
Proof.
  induction 1 as [i sub_experiment_id program rest fb Hnan
                 |i sub_experiment_id program rest fb fb' Hrun Hrest IH].
  - destruct (nan_in_program_raises _ _ _ _ _ _ Hnan) as (fb' & Hrun).
    exists fb'. simpl. unfold mbind, _get_early_stopping_fn. by rewrite Hrun.
  - destruct IH as (fb'' & Hrun'). exists fb''. simpl.
    unfold mbind, _get_early_stopping_fn. by rewrite Hrun.
Qed.


End tuning_properties.

Lemma tuning_step_offset_witness :
  let eval_mode :=
    {| has_train := true; has_eval := true; has_decode := false |} in
  let fb := {| id := 1; measurements := []; status := Pending |} in
  let subs :=
    [("a"%string, Finish); ("b"%string, Finish);
     ("c"%string, Report ∅ eval_mode 5 false (fun _ => Finish))] in
  exists m,
    measurements
      (run_trial 0 (fun _ _ => 1%float) (fun _ => ∅) (fun _ => false)
         true [] subs fb).2 !! 0%nat = Some m /\
    m_step m = 2000000005.
Proof.
  intros eval_mode fb subs.
  destruct (tuning_step_offset 0 (fun _ _ => 1%float) (fun _ => ∅)
              (fun _ => false) true []
              [("a"%string, Finish); ("b"%string, Finish)] "c"%string
              (Report ∅ eval_mode 5 false (fun _ => Finish)) [] fb fb
              ∅ eval_mode 5 false fb)
    as (_ & Hreport); [reflexivity|].
  destruct Hreport as (m & Hm & Hstep & _);
    [apply calls_now|reflexivity|reflexivity|].
  exists m. split; [exact Hm|exact Hstep].
Defined.

(** C2 fails on the code.  The reward is tested for NaN only where the
    early-stopping function reports the measurement of a step.  Where it
    computes the additional final measurement of the trial, and where
    [tune] computes the reward of an early-stopping signal, a NaN reward is
    reported as a measurement and the trial is marked done, not skipped. *)
Lemma nan_final_reward_completes_trial :
  let eval_mode :=
    {| has_train := true; has_eval := true; has_decode := false |} in
  let fb := {| id := 1; measurements := []; status := Pending |} in
  let nan_at_11 : Metrics -> Z -> float :=
    fun _ step => if step =? 11 then PrimFloat.nan else 1%float in
  let last_step :=
    run_trial 0 nan_at_11 (fun _ => ∅) (fun _ => false) true []
      [(""%string, Report ∅ eval_mode 10 true (fun _ => Finish))] fb in
  let signal :=
    {| es_skip := false; es_skip_reason := None; es_step := 10;
       es_reward := None; es_metrics := ∅; es_checkpoint := None |} in
  let stopped :=
    run_trial 0 (fun _ _ => PrimFloat.nan) (fun _ => ∅) (fun _ => false)
      true [] [(""%string, Raises (EarlyStoppingError signal))] fb in
  (last_step.1 = Ok tt /\ status last_step.2 = Completed /\
   (m_step <$> measurements last_step.2) = [10; 11] /\
   (PrimFloat.is_nan <$> (m_reward <$> measurements last_step.2))
   = [false; true]) /\
  (stopped.1 = Ok tt /\ status stopped.2 = Completed /\
   (m_step <$> measurements stopped.2) = [10] /\
   (PrimFloat.is_nan <$> (m_reward <$> measurements stopped.2)) = [true]).
Proof. vm_compute. by repeat split. Qed.


End tuning_lib_properties.

(** * Further properties *)

(** ** Checkpoint managers *)

Module checkpoint_managers_more.

Import checkpoint_managers checkpoint_managers_spec.
Import checkpoint_managers_properties.

Section cadence_more.

Variable reached_preemption_sync_point : Z -> bool.

Local Abbreviation cadence :=
  (checkpoint_managers_spec.cadence reached_preemption_sync_point).
Local Abbreviation periodic :=
  (checkpoint_managers_spec.periodic reached_preemption_sync_point).

Lemma cadence_periodic n steps : forall last,
  Sorted Z.lt steps ->
  (forall l, last = Some l -> Forall (Z.lt l) steps) ->
  cadence n last steps =
  periodic n (match last with None => true | Some _ => false end) steps.
Proof.
  induction steps as [|s rest IH]; intros last Hsorted Hlast; [done|].
  cbn [checkpoint_managers_spec.cadence checkpoint_managers_spec.periodic].
  apply Sorted_StronglySorted in Hsorted; [|intros ???; lia].
  apply StronglySorted_inv in Hsorted as [Hrest Hs].
  assert (Hb : match last with
               | None => true
               | Some l => (l <? s) && (s mod n =? 0)
               end =
               match last with None => true | Some _ => false end
               || (s mod n =? 0)).
  { destruct last as [l|]; [|done].
    specialize (Hlast l eq_refl). apply Forall_inv in Hlast.
    by rewrite (proj2 (Z.ltb_lt _ _) Hlast). }
  rewrite Hb, orb_assoc. f_equal.
  set (b := _ || _ || _).
  rewrite (IH (if b then Some s else last)).
  - destruct last as [l|]; [by destruct b|].
    subst b. by rewrite orb_true_r.
  - by apply StronglySorted_Sorted.
  - intros l Hl. destruct b.
    + by injection Hl as <-.
    + subst last. specialize (Hlast l eq_refl).
      apply Forall_inv_tail in Hlast. done.
Qed.

(** X1.  On a strictly increasing run of steps, each beyond the last
    checkpoint, the answer after the first call is the preemption signal or
    [step mod save_interval_steps == 0], whatever was saved before: a save
    on preemption does not shift the save period.  The first call
    answers true besides when no checkpoint exists. *)
Theorem preemption_keeps_the_period self n steps :
  save_interval_steps (_options self) = Some n -> n <> 0 ->
  Sorted Z.lt steps ->
  (forall l, _last_checkpoint self = Some l -> Forall (Z.lt (step l)) steps) ->
  submit reached_preemption_sync_point self steps =
  Ok (periodic n
        (match _last_checkpoint self with None => true | Some _ => false end)
        steps).
Proof.
  intros Hn Hnz Hsorted Hlast.
  rewrite (submit_cadence _ steps self n Hn Hnz).
  rewrite cadence_periodic; [|done|].
  - by destruct (_last_checkpoint self).
  - intros l Hl. destruct (_last_checkpoint self) as [info|]; [|done].
    injection Hl as <-. by apply Hlast.
Qed.

Lemma cadence_saved_increasing n steps : forall last,
  (forall s, reached_preemption_sync_point s = false) ->
  StronglySorted Z.lt (saved_steps (cadence n last steps)) /\
  forall l, last = Some l -> Forall (Z.lt l) (saved_steps (cadence n last steps)).
Proof.
  intros last Hquiet. revert last.
  induction steps as [|s rest IH]; intros last.
  { split; [constructor|by intros]. }
  cbn [checkpoint_managers_spec.cadence]. rewrite Hquiet. cbn [orb].
  set (b := match last with None => true | Some l => _ end).
  destruct (IH (if b then Some s else last)) as [Hsorted Hbound].
  unfold saved_steps in *. cbn [List.filter snd].
  destruct b eqn:Hb; cbn [fmap list_fmap fst].
  - split.
    + constructor; [done|]. by apply Hbound.
    + intros l ->. subst b. apply andb_true_iff in Hb as [Hl _].
      apply Z.ltb_lt in Hl. constructor; [done|].
      eapply Forall_impl; [by apply Hbound|]. simpl. intros; lia.
  - split; [done|]. intros l ->. by apply Hbound.
Qed.

(** X2.  Without preemption signals the steps a manager saves are strictly
    increasing in the order of the calls, whatever the order of the steps
    submitted, and all lie beyond the checkpoint the manager started from:
    a step at or below a saved one is never saved again. *)
Theorem saved_steps_increase self n steps answers :
  save_interval_steps (_options self) = Some n -> n <> 0 ->
  (forall s, reached_preemption_sync_point s = false) ->
  submit reached_preemption_sync_point self steps = Ok answers ->
  StronglySorted Z.lt (saved_steps answers) /\
  forall l, _last_checkpoint self = Some l ->
    Forall (Z.lt (step l)) (saved_steps answers).
Proof.
  intros Hn Hnz Hquiet. rewrite (submit_cadence _ steps self n Hn Hnz).
  intros [= <-].
  destruct (cadence_saved_increasing n steps (step <$> _last_checkpoint self)
              Hquiet) as [Hsorted Hbound].
  split; [done|]. intros l Hl. apply Hbound. by rewrite Hl.
Qed.

End cadence_more.

Lemma preemption_keeps_the_period_witness :
  submit (fun s => s =? 7)
    {| _checkpoint_type := CHECKPOINT_FLAX; directory := ["ckpt"%string];
       _options := {| save_interval_steps := Some 5; max_to_keep := None;
                      todelete_subdir := None |};
       _checkpoints := []; _last_checkpoint := None |} [3; 5; 7; 9; 10]
  = Ok [(3, true); (5, true); (7, true); (9, false); (10, true)].
Proof.
  apply (preemption_keeps_the_period (fun s => s =? 7)
           {| _checkpoint_type := CHECKPOINT_FLAX; directory := ["ckpt"%string];
              _options := {| save_interval_steps := Some 5; max_to_keep := None;
                             todelete_subdir := None |};
              _checkpoints := []; _last_checkpoint := None |}
           5 [3; 5; 7; 9; 10]).
  - reflexivity.
  - lia.
  - repeat constructor.
  - intros l Hl. discriminate Hl.
Defined.

Lemma saved_steps_increase_witness :
  StronglySorted Z.lt (saved_steps [(10, true); (4, false); (20, true)]).
Proof.
  apply (saved_steps_increase (fun _ => false)
           {| _checkpoint_type := CHECKPOINT_FLAX; directory := ["ckpt"%string];
              _options := {| save_interval_steps := Some 5; max_to_keep := None;
                             todelete_subdir := None |};
              _checkpoints := []; _last_checkpoint := None |}
           5 [10; 4; 20] [(10, true); (4, false); (20, true)]).
  - reflexivity.
  - lia.
  - reflexivity.
  - reflexivity.
Defined.

Section names_more.

Variable checkpoints_checkpoint_name : Z -> string.

(** X3.  In the Flax format the directory name of a step is the prefix
    followed by the step, so two steps with the same name are the same
    step: no two checkpoints share a directory. *)
Theorem flax_checkpoint_names_distinct self s1 s2 :
  _checkpoint_type self = CHECKPOINT_FLAX ->
  _checkpoint_name checkpoints_checkpoint_name self s1 =
  _checkpoint_name checkpoints_checkpoint_name self s2 ->
  s1 = s2.
Proof.
  unfold _checkpoint_name. intros -> Hname.
  apply (inj (String.app CHECKPOINT_PREFIX)) in Hname.
  by apply (inj pretty) in Hname.
Qed.

Lemma delete_directory_soft_inv self s fs fs' sub first rest :
  todelete_subdir (_options self) = Some sub ->
  root_of sub = None -> parts_of sub = first :: rest ->
  let checkpoint_name := _checkpoint_name checkpoints_checkpoint_name self s in
  segment checkpoint_name ->
  let rename_dir := directory self ++ first :: rest in
  let src := directory self ++ [checkpoint_name] in
  let dst := rename_dir ++ [checkpoint_name] in
  _delete_directory checkpoints_checkpoint_name 0 self s fs = Ok fs' ->
  exists fs1 : FS,
    fs1 rename_dir <> None /\ fs1 src <> None /\
    (forall q, is_prefix q rename_dir = false -> fs1 q = fs q) /\
    forall q, fs' q = if is_prefix src q then None
                      else match strip dst q with
                           | Some suffix => fs1 (src ++ suffix)
                           | None => fs1 q
                           end.
Proof.
  intros Hsub Hroot Hparts checkpoint_name Hname rename_dir src dst.
  destruct (delete_directory_soft checkpoints_checkpoint_name self s fs sub
              first rest Hsub Hroot Hparts Hname) as (_ & _ & _ & ->).
  fold checkpoint_name rename_dir src dst. intros Hrun.
  assert (Hfs1 : exists fs1 : FS,
            (if negb (fs_exists fs rename_dir)
             then mkdir_parents fs rename_dir else Ok fs) = Ok fs1 /\
            fs1 rename_dir <> None /\
            forall q, is_prefix q rename_dir = false -> fs1 q = fs q).
  { destruct (fs rename_dir) as [node|] eqn:Hrd.
    - rewrite (fs_exists_true fs rename_dir) by congruence.
      exists fs. by rewrite Hrd.
    - rewrite (fs_exists_false fs rename_dir Hrd) in Hrun |- *.
      cbn [negb] in Hrun |- *. unfold mkdir_parents in Hrun |- *.
      rewrite (fs_exists_false fs rename_dir Hrd) in Hrun |- *.
      destruct (existsb (is_file fs) (ancestors rename_dir)); [done|].
      eexists. split; [reflexivity|]. split.
      + by rewrite is_prefix_refl, Hrd.
      + by intros q ->. }
  destruct Hfs1 as (fs1 & Hmk & Hrd & Hframe). rewrite Hmk in Hrun.
  cbn [bind] in Hrun. unfold rename in Hrun.
  destruct (fs_exists fs1 dst); [done|].
  destruct (fs1 src) as [node|] eqn:Hsrc.
  2:{ by rewrite (fs_exists_false fs1 src Hsrc) in Hrun. }
  destruct (negb (fs_exists fs1 src)); [done|].
  destruct (negb (fs_exists fs1 (removelast dst))); [done|].
  destruct (negb (is_dir fs1 (removelast dst))); [done|].
  destruct (is_prefix src dst); [done|].
  injection Hrun as <-. exists fs1. by rewrite Hsrc.
Qed.



End names_more.

Lemma flax_checkpoint_names_distinct_witness : 100 = 100.
Proof.
  apply (flax_checkpoint_names_distinct (fun _ => "unused"%string)
           {| _checkpoint_type := CHECKPOINT_FLAX; directory := ["root"%string];
              _options := {| save_interval_steps := Some 1; max_to_keep := None;
                             todelete_subdir := None |};
              _checkpoints := []; _last_checkpoint := None |} 100 100).
  - reflexivity.
  - reflexivity.
Defined.



Lemma for_each_Forall2 {A B} (f : A -> result B) l : forall ys,
  for_each f l = Ok ys -> Forall2 (fun x y => f x = Ok y) l ys.
Proof.
  induction l as [|x l IH]; intros ys Hys; simpl in Hys.
  - injection Hys as <-. constructor.
  - destruct (f x) as [y|e] eqn:Hx; [|done]. cbn [bind] in Hys.
    destruct (for_each f l) as [ys'|e]; [|done].
    injection Hys as <-. constructor; [done|by apply IH].
Qed.

Lemma sorted_last_greatest (l : list Z) m :
  Sorted Z.le l -> last l = Some m -> Forall (fun x => x <= m) l.
Proof.
  intros Hsorted. apply Sorted_StronglySorted in Hsorted; [|intros ???; lia].
  induction Hsorted as [|x l Hl IH Hx]; intros Hlast; [constructor|].
  destruct l as [|y l'].
  - injection Hlast as <-. by repeat constructor.
  - rewrite last_cons_cons in Hlast. specialize (IH Hlast).
    constructor; [|done].
    apply Forall_inv in Hx, IH. lia.
Qed.

Lemma zip_fst_steps {B C} (steps : list Z) (times : list B) (ms : list C)
    (mk : Z * B * C -> CheckpointInfo) :
  (forall stm, step (mk stm) = stm.1.1) ->
  length times = length steps -> length ms = length steps ->
  step <$> (mk <$> zip (zip steps times) ms) = steps.
Proof.
  intros Hmk. revert times ms.
  induction steps as [|s steps IH]; intros [|t times] [|m ms] Ht Hm;
    simplify_eq/=; [done|].
  by rewrite Hmk, IH.
Qed.

Section discovery.

Variable checkpoints_checkpoint_name : Z -> string.
Variable is_checkpoint_asset : string -> bool.
Variable checkpoints_CHECKPOINT_PREFIX : string.
Variable int_of_str : string -> result Z.
Variable stat_mtime : Path -> result Z.
Variable restore_metrics : Z -> result (option (gmap string float)).

Local Abbreviation create_checkpoints :=
  (_create_checkpoints checkpoints_checkpoint_name is_checkpoint_asset
     checkpoints_CHECKPOINT_PREFIX int_of_str stat_mtime restore_metrics).

(** The step read off the name of a checkpoint asset. *)
Local Abbreviation step_of :=
  (fun x => int_of_str (remove_all checkpoints_CHECKPOINT_PREFIX (basename x))).

(** X4.  When [_create_checkpoints] returns, it returns one
    [CheckpointInfo] per checkpoint asset of the listing: their steps are
    the steps read off the assets' names, rearranged in ascending order, so
    the last one has the greatest step; each time is the modification time
    of the step's directory; and no metrics are restored unless best
    checkpoints are tracked.  A listing without assets gives the empty list
    without any directory being looked at. *)
Theorem create_checkpoints_sorted track_best self listing :
  (List.filter is_checkpoint_asset listing = [] ->
   create_checkpoints track_best self listing = Ok []) /\
  (forall infos,
     create_checkpoints track_best self listing = Ok infos ->
     exists parsed,
       Forall2 (fun x s => step_of x = Ok s)
         (List.filter is_checkpoint_asset listing) parsed /\
       step <$> infos ≡ₚ parsed /\
       Sorted Z.le (step <$> infos) /\
       length infos = length (List.filter is_checkpoint_asset listing) /\
       (forall final, last infos = Some final ->
          Forall (fun info => step info <= step final) infos) /\
       Forall (fun info =>
                 stat_mtime (path_div (directory self)
                               (_checkpoint_name checkpoints_checkpoint_name
                                  self (step info))) = Ok (time info)) infos /\
       (track_best = false -> Forall (fun info => metrics info = None) infos)).
Proof.
  unfold _create_checkpoints. split.
  { by intros ->. }
  intros infos.
  destruct (for_each _ (List.filter is_checkpoint_asset listing))
    as [parsed|e] eqn:Hparsed; [|done].
  cbn [bind]. intros Hrun. exists parsed.
  pose proof (for_each_Forall2 _ _ _ Hparsed) as Hall.
  split; [exact Hall|].
  pose proof (merge_sort_Permutation Z.le parsed) as Hperm.
  pose proof (Sorted_merge_sort Z.le parsed) as Hsorted.
  set (steps := merge_sort Z.le parsed) in *.
  assert (Hsteps : step <$> infos = steps /\
            Forall (fun info =>
              stat_mtime (path_div (directory self)
                            (_checkpoint_name checkpoints_checkpoint_name
                               self (step info))) = Ok (time info)) infos /\
            (track_best = false ->
             Forall (fun info => metrics info = None) infos)).
  { destruct steps as [|s0 steps'] eqn:Hs.
    { injection Hrun as <-. by repeat split. }
    rewrite <- Hs in *. clear Hs.
    destruct (for_each _ steps) as [times|e] eqn:Htimes in Hrun; [|done].
    cbn [bind] in Hrun.
    destruct (for_each (get_metrics restore_metrics track_best) steps)
      as [ms|e] eqn:Hms; [|done].
    cbn [bind] in Hrun. injection Hrun as <-.
    apply for_each_Forall2 in Htimes, Hms.
    pose proof (Forall2_length _ _ _ Htimes) as Hlt.
    pose proof (Forall2_length _ _ _ Hms) as Hlm.
    split; [by apply zip_fst_steps|].
    clear Hperm Hsorted Hall Hparsed. split.
    - revert times ms Htimes Hms Hlt Hlm.
      induction steps as [|s steps IH]; intros times ms Htimes Hms Hlt Hlm.
      + constructor.
      + destruct times as [|t times], ms as [|m ms]; simplify_eq/=.
        apply Forall2_cons in Htimes as [Ht Htimes].
        apply Forall2_cons in Hms as [Hm Hms].
        constructor; [done|]. by apply IH.
    - intros ->. revert times ms Htimes Hms Hlt Hlm.
      induction steps as [|s steps IH]; intros times ms Htimes Hms Hlt Hlm.
      + constructor.
      + destruct times as [|t times], ms as [|m ms]; simplify_eq/=.
        apply Forall2_cons in Htimes as [Ht Htimes].
        apply Forall2_cons in Hms as [Hm Hms].
        constructor; [by injection Hm as <-|]. by apply IH. }
  destruct Hsteps as (Hst & Htimes & Hmetrics).
  rewrite Hst. split; [done|]. split; [done|]. split.
  { rewrite <- (length_fmap step infos), Hst, Hperm.
    symmetry. eapply Forall2_length, Hall. }
  split; [|done].
  intros final Hfinal.
  assert (Hlast : last (step <$> infos) = Some (step final))
    by (by rewrite fmap_last, Hfinal).
  rewrite Hst in Hlast.
  pose proof (sorted_last_greatest steps (step final) Hsorted Hlast) as Hmax.
  rewrite <- Hst, Forall_fmap in Hmax. exact Hmax.
Qed.

End discovery.

Lemma create_checkpoints_sorted_witness :
  exists infos,
    _create_checkpoints (fun _ => "unused"%string) (String.prefix "checkpoint_")
      "checkpoint_"
      (fun x => if String.eqb x "2" then Ok 2
                else if String.eqb x "5" then Ok 5
                else if String.eqb x "1" then Ok 1
                else Raise (ValueError "invalid literal"))
      (fun _ => Ok 0) (fun _ => Ok None) false
      {| _checkpoint_type := CHECKPOINT_FLAX; directory := ["root"%string];
         _options := {| save_interval_steps := Some 1; max_to_keep := None;
                        todelete_subdir := None |};
         _checkpoints := []; _last_checkpoint := None |}
      ["checkpoint_2"; "notes.txt"; "checkpoint_5"; "checkpoint_1"]%string
    = Ok infos /\
    step <$> infos = [1; 2; 5] /\
    Sorted Z.le (step <$> infos).
Proof.
  eexists. split; [vm_compute; reflexivity|]. split; [reflexivity|].
  destruct (create_checkpoints_sorted (fun _ => "unused"%string)
            (String.prefix "checkpoint_") "checkpoint_"
            (fun x => if String.eqb x "2" then Ok 2
                      else if String.eqb x "5" then Ok 5
                      else if String.eqb x "1" then Ok 1
                      else Raise (ValueError "invalid literal"))
            (fun _ => Ok 0) (fun _ => Ok None) false
            {| _checkpoint_type := CHECKPOINT_FLAX; directory := ["root"%string];
               _options := {| save_interval_steps := Some 1; max_to_keep := None;
                              todelete_subdir := None |};
               _checkpoints := []; _last_checkpoint := None |}
            ["checkpoint_2"; "notes.txt"; "checkpoint_5"; "checkpoint_1"]%string)
    as [_ Hall].
  edestruct Hall as (parsed & _ & _ & Hsorted & _); [vm_compute; reflexivity|].
  exact Hsorted.
Defined.

Lemma siblings_apart (dir : Path) (names : list string) :
  NoDup names -> StronglySorted apart (child dir <$> names).
Proof.
  induction 1 as [|x names Hx _ IH]; simpl; constructor; [done|].
  apply Forall_fmap, Forall_forall. intros y Hy. unfold apart, child. simpl.
  apply is_prefix_fork. intros ->. done.
Qed.

Lemma filter_StronglySorted {A} (R : A -> A -> Prop) f (l : list A) :
  StronglySorted R l -> StronglySorted R (List.filter f l).
Proof.
  induction 1 as [|x l Hl IH Hx]; simpl; [constructor|].
  destruct (f x); [|done]. constructor; [done|].
  apply Forall_forall. intros y Hy%list_elem_of_In%filter_In.
  destruct Hy as [Hy _]. rewrite Forall_forall in Hx.
  by apply Hx, list_elem_of_In.
Qed.

Lemma remove_tmp_dirs_effect dirs : forall fs : FS,
  StronglySorted apart dirs ->
  Forall (fun d => fs d = Some Dir) dirs ->
  exists fs',
    remove_tmp_dirs dirs fs = Ok fs' /\
    forall q, fs' q = if under_any dirs q then None else fs q.
Proof.
  induction dirs as [|d rest IH]; intros fs Hapart Hdirs.
  { by exists fs. }
  apply StronglySorted_inv in Hapart as [Hrest Hd].
  apply Forall_cons in Hdirs as [Hdir Hdirs].
  cbn [remove_tmp_dirs]. unfold is_dir. rewrite Hdir. unfold rmtree.
  rewrite (fs_exists_true fs d) by congruence. cbn [negb bind].
  set (fs1 := fun q : Path => if is_prefix d q then None else fs q).
  destruct (IH fs1 Hrest) as (fs' & Hrun & Hfs').
  { rewrite Forall_forall in Hd, Hdirs |- *. intros d' Hd'.
    unfold fs1. rewrite (Hd d' Hd'). by apply Hdirs. }
  exists fs'. split; [exact Hrun|]. intros q. rewrite Hfs'.
  unfold under_any, fs1. cbn [existsb].
  by destruct (is_prefix d q), (existsb _ rest).
Qed.

Section cleanup.

Variable is_checkpoint_item_finalized : Path -> bool.

(** X5.  [_cleanup_tmp_directories] changes nothing on a mock backend or on
    a process other than 0.  On process 0, when the entries of the
    directory are listed once each and every unfinalized checkpoint entry
    is a directory, it removes exactly these with all that lies below
    them: every other path, a finalized checkpoint among them, is as it
    was. *)
Theorem cleanup_removes_unfinalized is_mock_tpu_backend process_index self
    listing fs :
  let dirs := tmp_dirs is_checkpoint_item_finalized self listing in
  let run :=
    _cleanup_tmp_directories is_checkpoint_item_finalized is_mock_tpu_backend
      process_index self listing fs in
  (is_mock_tpu_backend = true \/ process_index <> 0 -> run = Ok fs) /\
  (is_mock_tpu_backend = false -> process_index = 0 ->
   NoDup listing -> Forall (fun d => fs d = Some Dir) dirs ->
   exists fs',
     run = Ok fs' /\
     (forall q, fs' q = if under_any dirs q then None else fs q) /\
     (forall name below,
        In name listing ->
        String.prefix CHECKPOINT_PREFIX name = true ->
        is_checkpoint_item_finalized (child (directory self) name) = false ->
        fs' (child (directory self) name ++ below) = None) /\
     (forall name below,
        (String.prefix CHECKPOINT_PREFIX name = false \/
         is_checkpoint_item_finalized (child (directory self) name) = true) ->
        fs' (child (directory self) name ++ below) =
        fs (child (directory self) name ++ below))).
Proof.
  intros dirs run. subst run. unfold _cleanup_tmp_directories. fold dirs.
  split.
  { intros [->|Hp]; [done|]. destruct is_mock_tpu_backend; [done|].
    by rewrite (proj2 (Z.eqb_neq _ _) Hp). }
  intros -> -> Hnodup Hdirs. cbn [Z.eqb].
  destruct (remove_tmp_dirs_effect dirs fs) as (fs' & Hrun & Hfs'); [|done|].
  { subst dirs. unfold tmp_dirs. apply filter_StronglySorted, siblings_apart.
    by apply NoDup_ListNoDup, List.NoDup_filter, NoDup_ListNoDup. }
  exists fs'. split; [exact Hrun|]. split; [exact Hfs'|]. split.
  - intros name below Hin Hpre Hfin. rewrite Hfs'.
    assert (under_any dirs (child (directory self) name ++ below) = true)
      as ->; [|done].
    unfold under_any. apply existsb_exists.
    exists (child (directory self) name). split; [|apply is_prefix_app].
    subst dirs. unfold tmp_dirs. apply filter_In. split; [|by rewrite Hfin].
    apply in_map. apply filter_In. done.
  - intros name below Hname. rewrite Hfs'.
    assert (under_any dirs (child (directory self) name ++ below) = false)
      as ->; [|done].
    apply not_true_iff_false. unfold under_any. rewrite existsb_exists.
    intros (d & Hd & Hpre). subst dirs. unfold tmp_dirs in Hd.
    apply filter_In in Hd as [Hd Hfin].
    apply in_map_iff in Hd as (other & <- & Hother).
    apply filter_In in Hother as [_ Hop].
    destruct (decide (other = name)) as [->|Hne].
    + destruct Hname as [Hn|Hn]; [congruence|].
      rewrite Hn in Hfin. done.
    + by rewrite child_fork in Hpre.
Qed.

End cleanup.

Lemma cleanup_removes_unfinalized_witness :
  let self :=
    {| _checkpoint_type := CHECKPOINT_FLAX; directory := ["root"%string];
       _options := {| save_interval_steps := Some 1; max_to_keep := None;
                      todelete_subdir := None |};
       _checkpoints := []; _last_checkpoint := None |} in
  let fs : FS := fun q =>
    if decide (q = ["root"%string]) then Some Dir
    else if decide (q = ["root"; "checkpoint_100"]%string) then Some Dir
    else if decide (q = ["root"; "checkpoint_200"]%string) then Some Dir
    else if decide (q = ["root"; "checkpoint_200"; "state"]%string)
         then Some (File "partial") else None in
  let finalized : Path -> bool := fun q =>
    bool_decide (q = ["root"; "checkpoint_100"]%string) in
  exists fs',
    _cleanup_tmp_directories finalized false 0 self
      ["checkpoint_100"; "checkpoint_200"]%string fs = Ok fs' /\
    fs' ["root"; "checkpoint_200"; "state"]%string = None /\
    fs' ["root"; "checkpoint_100"]%string = Some Dir.
Proof.
  intros self fs finalized.
  destruct (cleanup_removes_unfinalized finalized false 0 self
              ["checkpoint_100"; "checkpoint_200"]%string fs) as [_ Hclean].
  destruct Hclean as (fs' & Hrun & _ & Hgone & Hkept).
  - reflexivity.
  - reflexivity.
  - by apply (bool_decide_unpack _).
  - repeat constructor.
  - exists fs'. split; [exact Hrun|]. split.
    + apply (Hgone "checkpoint_200"%string ["state"%string]);
        [right; left; reflexivity|reflexivity|reflexivity].
    + apply (Hkept "checkpoint_100"%string []). right. reflexivity.
Defined.

End checkpoint_managers_more.

(** ** Experiment lookup *)

Module experiment_lib_more.

Import experiment_lib.

(** X8.  A lookup that succeeded is answered by the registry from then on:
    on the registry it left, the same name gives the same class and leaves
    the registry alone, whatever an import would do, so nothing is imported
    twice. *)
Theorem get_experiment_repeats (BaseExperimentT : Type)
    (import_module import_module' :
       string -> gmap string BaseExperimentT ->
       result (gmap string BaseExperimentT))
    registry experiment_name cls registry' :
  get_experiment BaseExperimentT import_module registry experiment_name
  = Ok (cls, registry') ->
  get_experiment BaseExperimentT import_module' registry' experiment_name
  = Ok (cls, registry').
Proof.
  unfold get_experiment at 1.
  assert (Hhit : registry' !! experiment_name = Some cls ->
            get_experiment BaseExperimentT import_module' registry'
              experiment_name = Ok (cls, registry')).
  { intros Hreg. unfold get_experiment. by rewrite Hreg. }
  destruct (registry !! experiment_name) as [c|] eqn:Hreg.
  { intros [= <- <-]. by apply Hhit. }
  destruct (import_module _ registry) as [r|e]; [|by destruct e].
  destruct (r !! experiment_name) as [c|] eqn:Hr; [|done].
  intros [= <- <-]. by apply Hhit.
Qed.

Lemma get_experiment_repeats_witness :
  let import_module : string -> gmap string nat -> result (gmap string nat) :=
    fun m r => if String.eqb m "pkg.exps"
               then Ok (<["pkg.exps.Lm"%string := 7%nat]> r)
               else Raise (ModuleNotFoundError m) in
  get_experiment nat (fun m _ => Raise (ModuleNotFoundError m))
    (<["pkg.exps.Lm"%string := 7%nat]> ∅) "pkg.exps.Lm"
  = Ok (7%nat, <["pkg.exps.Lm"%string := 7%nat]> ∅).
Proof.
  intros import_module.
  apply (get_experiment_repeats nat import_module
           (fun m _ => Raise (ModuleNotFoundError m)) ∅ "pkg.exps.Lm").
  reflexivity.
Defined.

End experiment_lib_more.

(** ** The tuning library *)

Module tuning_lib_more.

Import tuning_lib tuning_lib_spec tuning_lib_properties.

(** X9.  Up to the end of training the last-checkpoint verdict, once
    true, stays true at every later step.  With neither eval nor decode
    active the intervals play no part: the verdict is true at
    [num_train_steps] exactly. *)
Theorem is_last_checkpoint_stays running_mode global_step later_step
    num_train_steps eval_interval_steps decode_interval_steps
    save_interval_steps :
  (global_step <= later_step <= num_train_steps ->
   is_last_checkpoint running_mode global_step num_train_steps
     eval_interval_steps decode_interval_steps save_interval_steps = true ->
   is_last_checkpoint running_mode later_step num_train_steps
     eval_interval_steps decode_interval_steps save_interval_steps = true) /\
  (has_eval running_mode = false -> has_decode running_mode = false ->
   (is_last_checkpoint running_mode global_step num_train_steps
      eval_interval_steps decode_interval_steps save_interval_steps = true
    <-> global_step = num_train_steps)).
Proof.
  unfold is_last_checkpoint. split.
  - intros Hle.
    destruct (Z.eqb_spec (num_train_steps - later_step) 0) as [|Hl]; [done|].
    destruct (Z.eqb_spec (num_train_steps - global_step) 0) as [|Hg]; [lia|].
    cbn [negb]. rewrite !orb_true_iff.
    destruct (has_eval running_mode), (has_decode running_mode);
      rewrite ?Z.ltb_lt; intros [H|H]; try done; (left; lia) || (right; lia).
  - intros -> ->.
    destruct (Z.eqb_spec (num_train_steps - global_step) 0); simpl;
      split; (done || lia).
Qed.

Lemma is_last_checkpoint_stays_witness :
  is_last_checkpoint
    {| has_train := true; has_eval := true; has_decode := false |}
    95 100 20 0 5 = true.
Proof.
  apply (proj1 (is_last_checkpoint_stays
                  {| has_train := true; has_eval := true; has_decode := false |}
                  90 95 100 20 0 5)).
  - lia.
  - reflexivity.
Defined.

(** X10.  [_aggregate_metrics] fails only by its assertion, and exactly
    when a metrics list that is given along with the inputs differs from
    them in length; a list or the inputs being [None] never fails it. *)
Theorem aggregate_metrics_raises_iff train_metrics eval_train_metrics
    eval_metrics decode_metrics num_params train_steps_per_sec :
  let result :=
    _aggregate_metrics train_metrics eval_train_metrics eval_metrics
      decode_metrics num_params train_steps_per_sec in
  (result = Raise AssertionError <->
   assertions_hold eval_metrics decode_metrics = false) /\
  (forall e, result = Raise e -> e = AssertionError) /\
  ((forall em, eval_metrics = Some em ->
      forall ps, input_p em = Some ps ->
        (forall ms, metrics_list em = Some ms -> length ps = length ms) /\
        (forall ms, scoring_metrics_list em = Some ms ->
           length ps = length ms)) ->
   (forall dm, decode_metrics = Some dm ->
      forall ps, d_input_p dm = Some ps ->
        (forall ms, d_metrics_list dm = Some ms -> length ps = length ms) /\
        (forall ms, processed_metrics_list dm = Some ms ->
           length ps = length ms) /\
        (forall ms, seqio_metrics_list dm = Some ms ->
           length ps = length ms)) ->
   exists m, result = Ok m).
Proof.
  intros result. subst result. rewrite aggregate_metrics_union.
  split; [|split].
  - by destruct (assertions_hold _ _).
  - intros e. destruct (assertions_hold _ _); [done|]. by intros [= <-].
  - intros Heval Hdecode.
    assert (Hagree : forall ps ms,
              (forall ps', ps = Some ps' ->
                 forall ms', ms = Some ms' -> length ps' = length ms') ->
              lengths_agree ps ms = true).
    { intros [ps|] [ms|] H; try done. simpl.
      apply bool_decide_eq_true. by apply H. }
    assert (assertions_hold eval_metrics decode_metrics = true) as ->;
      [|by eexists].
    unfold assertions_hold. apply andb_true_iff. split.
    + destruct eval_metrics as [em|]; [|done].
      apply andb_true_iff.
      split; apply Hagree; intros ps Hps ms Hms;
        destruct (Heval em eq_refl ps Hps) as [H1 H2]; auto.
    + destruct decode_metrics as [dm|]; [|done].
      rewrite !andb_true_iff.
      repeat split; apply Hagree; intros ps Hps ms Hms;
        destruct (Hdecode dm eq_refl ps Hps) as (H1 & H2 & H3); auto.
Qed.

Lemma aggregate_metrics_raises_iff_witness :
  exists m,
    _aggregate_metrics None None (Some (eval_a 2)) None None None = Ok m.
Proof.
  apply (aggregate_metrics_raises_iff None None (Some (eval_a 2)) None None
           None).
  - intros em [= <-] ps [= <-]. split; [by intros ms [= <-]|done].
  - done.
Defined.

End tuning_lib_more.
